(** * Payroll tracker: commission formula and payroll ledger

    A shallow embedding of [payroll_tracker_gui.py], callback by callback.

    - A Python [float] that holds a currency amount is an exact rational
      ([Q]): sums, differences and halves are exact.  The [:.2f] format is
      rounding to whole cents with ties to even (what CPython does on the
      exact value of the float), and [float(...)] reads plain decimal
      numerals; exponents, [inf], [nan] and digit separators are read as
      malformed.
    - Text is ASCII: [strip], [lower] and [replace] act on ASCII letters and
      white space.
    - A CSV file is the list of rows [csv.reader] yields, a row is a list of
      strings, and the file system is a finite map from path to file.
      Opening an existing path succeeds; a missing path is the only storage
      condition that is tracked.  [os.rename] replaces its target.
    - [Employee] objects live in an object store and [self.employees] is a
      list of references into it: [load_employees] puts new objects in the
      list, while a dialog or a view keeps the reference it was opened with.
    - A callback returns the new state and the message boxes it showed. *)

From Stdlib Require Import QArith Qround Lqa ZArith Lia.
From Stdlib Require Import Ascii String DecimalString DecimalPos DecimalN DecimalZ.
From stdpp Require Import base option list strings gmap.

Local Open Scope string_scope.

(** ** Text helpers: the [str] methods the program calls *)

Module PyStr.

(** The ASCII white space [str.strip] removes: tab to carriage return,
    the four separators, and the space. *)
Definition is_space (c : ascii) : bool :=
  let n := Ascii.N_of_ascii c in
  ((9 <=? n) && (n <=? 13) || (28 <=? n) && (n <=? 32))%N.

Fixpoint lstrip (s : string) : string :=
  match s with
  | String c r => if is_space c then lstrip r else s
  | EmptyString => EmptyString
  end.

Fixpoint rstrip (s : string) : string :=
  match s with
  | String c r =>
      match rstrip r with
      | EmptyString => if is_space c then EmptyString else String c EmptyString
      | r' => String c r'
      end
  | EmptyString => EmptyString
  end.

Definition strip (s : string) : string := rstrip (lstrip s).

Definition lower_ascii (c : ascii) : ascii :=
  let n := Ascii.N_of_ascii c in
  if ((65 <=? n) && (n <=? 90))%N then Ascii.ascii_of_N (n + 32) else c.

Fixpoint lower (s : string) : string :=
  match s with
  | String c r => String (lower_ascii c) (lower r)
  | EmptyString => EmptyString
  end.

(** [s.replace(a, b)] for one-character [a] and [b]. *)
Fixpoint replace (a b : ascii) (s : string) : string :=
  match s with
  | String c r => String (if Ascii.eqb c a then b else c) (replace a b r)
  | EmptyString => EmptyString
  end.

(** [str(n)] for an [int]. *)
Definition str_int (z : Z) : string := NilZero.string_of_int (Z.to_int z).

(** [int(s)]: optional sign, decimal digits, surrounding white space. *)
Definition int (s : string) : option Z :=
  match strip s with
  | String "+" r => option_map Z.of_uint (NilZero.uint_of_string r)
  | t => option_map Z.of_int (NilZero.int_of_string t)
  end.

(** Splits at the first full stop, when there is one. *)
Fixpoint split_dot (s : string) : string * option string :=
  match s with
  | EmptyString => (EmptyString, None)
  | String c r =>
      if Ascii.eqb c "." then (EmptyString, Some r)
      else let '(a, b) := split_dot r in (String c a, b)
  end.

Definition pow10 (k : nat) : positive := Nat.iter k (Pos.mul 10) 1%positive.

(** Value of an unsigned decimal numeral [ip.fp] as a rational. *)
Definition decimal (ip fp : string) : option Q :=
  match NilEmpty.uint_of_string ip, NilEmpty.uint_of_string fp with
  | Some di, Some df =>
      if (String.length ip + String.length fp =? 0)%nat then None
      else
        let k := String.length fp in
        Some (Qmake (Z.of_N (N.of_uint di) * Z.pos (pow10 k)
                     + Z.of_N (N.of_uint df)) (pow10 k))
  | _, _ => None
  end.

(** The sign in front of a numeral. *)
Definition sign_split (t : string) : bool * string :=
  match t with
  | String "-" r => (true, r)
  | String "+" r => (false, r)
  | _ => (false, t)
  end.

(** [float(s)] on plain decimal numerals: optional sign, digits with an
    optional fraction, surrounding white space.  Anything else raises
    [ValueError] ([None]). *)
Definition float (s : string) : option Q :=
  let '(neg, body) := sign_split (strip s) in
  let '(ip, fp) := split_dot body in
  option_map (fun q => if neg : bool then Qopp q else q)
             (decimal ip (default EmptyString fp)).

(** Nearest integer, ties to even. *)
Definition round_half_even (q : Q) : Z :=
  let f := Qfloor q in
  match Qcompare (q - inject_Z f) (1 # 2) with
  | Lt => f
  | Gt => (f + 1)%Z
  | Eq => if Z.even f then f else (f + 1)%Z
  end.

(** The amount in whole cents that [:.2f] prints. *)
Definition cents (q : Q) : Z := round_half_even (q * 100).

Definition digit (n : N) : ascii := Ascii.ascii_of_N (48 + n).

(** [f"{q:.2f}"]. *)
Definition fmt2 (q : Q) : string :=
  let a := Z.to_N (Z.abs (cents q)) in
  (if Qle_bool 0 q then "" else "-")
  ++ NilZero.string_of_uint (N.to_uint (a / 100))
  ++ "."
  ++ String (digit (a / 10 mod 10)) (String (digit (a mod 10)) EmptyString).

End PyStr.


(** ** Numbers: comparisons and [max(0, x)] on amounts *)

Module PyNum.

Definition le (x y : Q) : bool := Qle_bool x y.
Definition lt (x y : Q) : bool := negb (Qle_bool y x).

(** [max(0, x)]: Python keeps the first argument unless the second is
    strictly greater. *)
Definition max0 (x : Q) : Q := if lt 0 x then x else 0.

(** What is read back from an amount written with [:.2f]. *)
Definition round2 (q : Q) : Q := Qmake (PyStr.cents q) 100.

(** An amount with at most two decimal digits. *)
Definition whole_cents (q : Q) : Prop := exists c : Z, q == c # 100.

End PyNum.

(** ** class Invoice *)

Module Invoice.

Definition calculate_commission_static
  (credit_card_used : bool) (total tip materials fees : Q) : Q :=
  if credit_card_used then
    ((total - materials - fees) / 2) + tip
  else
    if PyNum.lt materials 35 then
      ((total - fees) / 2) + tip
    else
      ((total - materials - fees) / 2) + tip + materials.

Record t := mk {
  number : string;
  customer : string;
  date : string;
  employee_name : string;
  status : string;
  credit_card_used : bool;
  total : Q;
  tip : Q;
  materials : Q;
  fees : Q;
  commission : Q
}.

(** [Invoice.__init__]: the commission is computed once, from the fields. *)
Definition init (number customer date employee_name status : string)
  (credit_card_used : bool) (total tip materials fees : Q) : t :=
  mk number customer date employee_name status credit_card_used
     total tip materials fees
     (calculate_commission_static credit_card_used total tip materials fees).

Definition calculate_commission (self : t) : Q :=
  calculate_commission_static
    (credit_card_used self) (total self) (tip self) (materials self) (fees self).

End Invoice.

(** ** class Employee *)

Module Employee.

Record t := mk {
  id : Z;
  name : string;
  weekly_pay : Q;
  year_to_date_pay : Q
}.

Definition init (emp_id : Z) (name : string) (weekly_pay year_to_date_pay : Q) : t :=
  mk emp_id name (PyNum.max0 weekly_pay) (PyNum.max0 year_to_date_pay).

Definition safe_name (self : t) : string :=
  PyStr.replace " " "_" (PyStr.lower (PyStr.strip (name self))).

Definition get_invoice_filename (self : t) : string :=
  "invoices/" ++ safe_name self ++ "_" ++ PyStr.str_int (id self) ++ ".csv".

Definition get_archived_invoice_filename (self : t) (date_str : string) : string :=
  let safe_date := PyStr.replace "/" "-" date_str in
  "archived_invoices/" ++ safe_name self ++ "_" ++ PyStr.str_int (id self)
    ++ "_week_" ++ safe_date ++ ".csv".

Definition get_payment_history_filename (self : t) : string :=
  "payment_history/" ++ safe_name self ++ "_" ++ PyStr.str_int (id self)
    ++ "_payments.csv".

Definition add_weekly_pay (self : t) (amount : Q) : t :=
  mk (id self) (name self) (weekly_pay self) (year_to_date_pay self + amount).

Definition close_out_week (self : t) : t :=
  mk (id self) (name self) 0 (year_to_date_pay self + weekly_pay self).

Definition edit_pay (self : t) (new_weekly_pay : Q) : t :=
  mk (id self) (name self) (PyNum.max0 new_weekly_pay) (year_to_date_pay self).

(** Plain attribute assignments, as the callbacks write them:
    [emp.weekly_pay = w], and [emp.id = new_id; emp.name = new_name]. *)
Definition set_weekly_pay (self : t) (w : Q) : t :=
  mk (id self) (name self) w (year_to_date_pay self).

Definition set_id_name (self : t) (new_id : Z) (new_name : string) : t :=
  mk new_id new_name (weekly_pay self) (year_to_date_pay self).

End Employee.

(** ** The application state *)

(** [heap] holds every [Employee] object created so far, [employees] is
    [self.employees] (references into [heap]), [fs] the files, [today] what
    [datetime.now().strftime("%m/%d/%Y")] prints. *)
Record App := mkApp {
  heap : list Employee.t;
  employees : list nat;
  fs : gmap string (list (list string));
  today : string
}.

(** What a callback shows to the user: the message boxes, and an exception
    that no handler of the callback catches. *)
Inductive reply :=
| showinfo (title message : string)
| showwarning (title message : string)
| showerror (title message : string)
| raised (exception : string).

Definition nl : string := String (Ascii.ascii_of_nat 10) EmptyString.

Definition employees_header : list string :=
  ["ID"; "Name"; "Weekly_Pay($)"; "Year_To_Date_Pay($)"].
Definition invoice_header : list string :=
  ["Invoice#"; "Customer"; "Date"; "Status"; "Total"; "Tip"; "Materials";
   "Fees"; "Commission"].
Definition payment_header : list string := ["Date"; "Amount"].

Definition set_fs (files : gmap string (list (list string))) (st : App) : App :=
  mkApp (heap st) (employees st) files (today st).

(** The object behind a reference. *)
Definition deref (st : App) (emp : nat) : option Employee.t := heap st !! emp.

(** Assignment to attributes of the object behind [emp]. *)
Definition set_obj (emp : nat) (e : Employee.t) (st : App) : App :=
  mkApp (<[emp := e]> (heap st)) (employees st) (fs st) (today st).

(** The objects of [self.employees], in order. *)
Definition roster (st : App) : list Employee.t :=
  omap (fun l => heap st !! l) (employees st).

(** *** find_employee, load_employees, save_employees *)

Fixpoint find_in (h : list Employee.t) (refs : list nat) (emp_id : Z) : option nat :=
  match refs with
  | [] => None
  | l :: rest =>
      match h !! l with
      | Some e => if Z.eqb (Employee.id e) emp_id then Some l else find_in h rest emp_id
      | None => find_in h rest emp_id
      end
  end.

Definition find_employee (st : App) (emp_id : Z) : option nat :=
  find_in (heap st) (employees st) emp_id.

(** One row of [employees.csv]: [None] when the loop skips it. *)
Definition parse_employee (row : list string) : option Employee.t :=
  match row with
  | c0 :: c1 :: c2 :: c3 :: _ =>
      if String.eqb (PyStr.strip c0) "" then None
      else
        emp_id ← PyStr.int (PyStr.strip c0);
        weekly_pay ← PyStr.float (PyStr.strip c2);
        ytd_pay ← PyStr.float (PyStr.strip c3);
        Some (Employee.init emp_id (PyStr.strip c1) weekly_pay ytd_pay)
  | _ => None
  end.

(** [load_employees]: the list is cleared and refilled with new objects.
    The second component is the exception that escapes ([next(reader)] on
    a file without a header line is not an [IOError]). *)
Definition load_employees (st : App) : App * option string :=
  match fs st !! "employees.csv" with
  | None => (mkApp (heap st) [] (fs st) (today st), None)
  | Some [] => (mkApp (heap st) [] (fs st) (today st), Some "StopIteration")
  | Some (_ :: rows) =>
      let new := omap parse_employee rows in
      (mkApp (heap st ++ new) (seq (length (heap st)) (length new))
             (fs st) (today st), None)
  end.

Definition employee_row (e : Employee.t) : list string :=
  [PyStr.str_int (Employee.id e); Employee.name e;
   PyStr.fmt2 (Employee.weekly_pay e); PyStr.fmt2 (Employee.year_to_date_pay e)].

Definition save_employees (st : App) : App :=
  set_fs (<["employees.csv" := employees_header :: map employee_row (roster st)]> (fs st)) st.

(** [self.save_employees(); self.load_employees()] and the message box that
    follows when nothing escapes. *)
Definition save_and_load (st : App) (done : reply) : App * list reply :=
  let '(st', exn) := load_employees (save_employees st) in
  match exn with
  | Some x => (st', [raised x])
  | None => (st', [done])
  end.

(** [PayrollTrackerGUI.__init__], as far as the ledger is concerned. *)
Definition init (files : gmap string (list (list string))) (date : string)
  : App * option string :=
  load_employees (mkApp [] [] files date).

(** *** add_invoice_dialog.save_invoice *)

(** The contents of the entry widgets of the "Add Invoice" dialog. *)
Module AddFields.
Record t := mk {
  number : string;
  customer : string;
  date : string;
  status : string;
  manual_override : bool;
  manual_commission : string;
  cc : bool;
  total : string;
  tip : string;
  materials : string;
  fees : string
}.
End AddFields.

(** The amounts of the row to store, commission first, in either mode. *)
Definition add_amounts (emp_name number customer date status : string)
  (fields : AddFields.t) : option (Q * (Q * Q * Q * Q)) :=
  if AddFields.manual_override fields then
    match PyStr.float (AddFields.manual_commission fields) with
    | Some commission => Some (commission, (0%Q, 0%Q, 0%Q, 0%Q))
    | None => None
    end
  else
    match PyStr.float (AddFields.total fields), PyStr.float (AddFields.tip fields),
          PyStr.float (AddFields.materials fields), PyStr.float (AddFields.fees fields) with
    | Some total, Some tip, Some materials, Some fees =>
        let invoice :=
          Invoice.init number customer date emp_name status (AddFields.cc fields)
                       total tip materials fees in
        Some (Invoice.commission invoice, (total, tip, materials, fees))
    | _, _, _, _ => None
    end.

Definition invoice_row (number customer date status : string)
  (total tip materials fees commission : Q) : list string :=
  [number; customer; date; status; PyStr.fmt2 total; PyStr.fmt2 tip;
   PyStr.fmt2 materials; PyStr.fmt2 fees; PyStr.fmt2 commission].

(** Opening a CSV file in mode ['a'] and writing one row, with the header
    first when the file is new. *)
Definition append_row (filename : string) (header row : list string)
  (files : gmap string (list (list string))) : gmap string (list (list string)) :=
  match files !! filename with
  | None => <[filename := [header; row]]> files
  | Some rows => <[filename := (rows ++ [row])%list]> files
  end.

Definition save_invoice (emp : nat) (fields : AddFields.t) (st : App)
  : App * list reply :=
  match deref st emp with
  | None => (st, [raised "AttributeError"])
  | Some e =>
      let number := PyStr.strip (AddFields.number fields) in
      let customer := PyStr.strip (AddFields.customer fields) in
      let date := PyStr.strip (AddFields.date fields) in
      let status := AddFields.status fields in
      if String.eqb number "" || String.eqb customer "" then
        (st, [showwarning "Warning" "Please enter invoice number and customer name."])
      else
        match add_amounts (Employee.name e) number customer date status fields with
        | None => (st, [showerror "Error" "Please enter valid numbers for amounts."])
        | Some (commission, (total, tip, materials, fees)) =>
            let filename := Employee.get_invoice_filename e in
            let row := invoice_row number customer date status
                                   total tip materials fees commission in
            let st1 := set_fs (append_row filename invoice_header row (fs st)) st in
            let st2 :=
              set_obj emp (Employee.set_weekly_pay e (Employee.weekly_pay e + commission)) st1 in
            let mode_text :=
              if AddFields.manual_override fields then "Manual" else "Calculated" in
            save_and_load st2
              (showinfo "Success"
                 ("Invoice added!" ++ nl ++ "Commission: $" ++ PyStr.fmt2 commission
                  ++ " (" ++ mode_text ++ ")"))
        end
  end.

(** *** edit_invoice_dialog and its save_changes *)

Module EditFields.
Record t := mk {
  number : string;
  customer : string;
  date : string;
  status : string;
  cc : bool;
  total : string;
  tip : string;
  materials : string;
  fees : string
}.
End EditFields.

(** What [edit_invoice_dialog] reads from the row it is opened on: the old
    invoice number and the old commission.  The dialog is not built when
    the row is short or an amount does not parse. *)
Definition old_values (invoice_row : list string) : string + (string * Q) :=
  match invoice_row with
  | n :: _ :: _ :: _ :: t :: tp :: m :: f :: c :: _ =>
      match PyStr.float t, PyStr.float tp, PyStr.float m, PyStr.float f, PyStr.float c with
      | Some _, Some _, Some _, Some _, Some old_commission => inr (n, old_commission)
      | _, _, _, _, _ => inl "ValueError"
      end
  | _ => inl "IndexError"
  end.

(** The loop over the rows of the invoice file: the rows whose number is
    the old one are replaced.  [None] is the [IndexError] of [row[0]] on an
    empty row. *)
Fixpoint replace_invoice (old_invoice_number : string) (new_row : list string)
  (rows : list (list string)) : option (list (list string)) :=
  match rows with
  | [] => Some []
  | row :: rest =>
      match row with
      | [] => None
      | n :: _ =>
          rest' ← replace_invoice old_invoice_number new_row rest;
          Some ((if String.eqb n old_invoice_number then new_row else row) :: rest')
      end
  end.

Definition save_changes (emp : nat) (invoice_row0 : list string)
  (fields : EditFields.t) (st : App) : App * list reply :=
  match deref st emp, old_values invoice_row0 with
  | None, _ => (st, [raised "AttributeError"])
  | Some _, inl x => (st, [raised x])
  | Some e, inr (old_invoice_number, old_commission) =>
      let new_number := PyStr.strip (EditFields.number fields) in
      let new_customer := PyStr.strip (EditFields.customer fields) in
      let new_date := PyStr.strip (EditFields.date fields) in
      let new_status := EditFields.status fields in
      let cc_used := EditFields.cc fields in
      match PyStr.float (EditFields.total fields), PyStr.float (EditFields.tip fields),
            PyStr.float (EditFields.materials fields), PyStr.float (EditFields.fees fields) with
      | Some new_total, Some new_tip, Some new_materials, Some new_fees =>
          if String.eqb new_number "" || String.eqb new_customer "" then
            (st, [showwarning "Warning" "Invoice number and customer name cannot be empty."])
          else
            let filename := Employee.get_invoice_filename e in
            let new_invoice :=
              Invoice.init new_number new_customer new_date (Employee.name e) new_status
                           cc_used new_total new_tip new_materials new_fees in
            let new_commission := Invoice.commission new_invoice in
            match fs st !! filename with
            | None => (st, [raised "FileNotFoundError"])
            | Some [] => (st, [raised "StopIteration"])
            | Some (header :: rows) =>
                let new_row := invoice_row new_number new_customer new_date new_status
                                 new_total new_tip new_materials new_fees new_commission in
                match replace_invoice old_invoice_number new_row rows with
                | None => (st, [raised "IndexError"])
                | Some invoices =>
                    let st1 := set_fs (<[filename := header :: invoices]> (fs st)) st in
                    let commission_diff := (new_commission - old_commission)%Q in
                    let st2 :=
                      set_obj emp
                        (Employee.set_weekly_pay e (Employee.weekly_pay e + commission_diff))
                        st1 in
                    save_and_load st2
                      (showinfo "Success"
                         ("Invoice updated!" ++ nl ++ "New Commission: $"
                          ++ PyStr.fmt2 new_commission))
                end
            end
      | _, _, _, _ => (st, [showerror "Error" "Please enter valid numbers for amounts."])
      end
  end.

(** *** toggle_invoice_status *)

(** The loop that marks the rows of one invoice; [inl] is the text of the
    exception it raises on a row that is too short. *)
Fixpoint mark_rows (invoice_number new_status : string) (rows : list (list string))
  : string + list (list string) :=
  match rows with
  | [] => inr []
  | row :: rest =>
      match row with
      | [] => inl "list index out of range"
      | n :: _ =>
          if String.eqb n invoice_number then
            if (length row <=? 3)%nat then inl "list assignment index out of range"
            else
              match mark_rows invoice_number new_status rest with
              | inl x => inl x
              | inr rest' => inr (<[3%nat := new_status]> row :: rest')
              end
          else
            match mark_rows invoice_number new_status rest with
            | inl x => inl x
            | inr rest' => inr (row :: rest')
            end
      end
  end.

Definition toggle_invoice_status (emp : nat) (invoice_row0 : list string)
  (new_status : string) (st : App) : App * list reply :=
  match deref st emp with
  | None => (st, [raised "AttributeError"])
  | Some e =>
      let filename := Employee.get_invoice_filename e in
      match invoice_row0 !! 0%nat, invoice_row0 !! 3%nat with
      | Some invoice_number, Some old_status =>
          if String.eqb old_status new_status then
            (st, [showinfo "Info" ("Invoice is already marked as " ++ new_status ++ ".")])
          else
            match fs st !! filename with
            | None =>
                (st, [showerror "Error"
                        ("Error reading invoices: [Errno 2] No such file or directory: '"
                         ++ filename ++ "'")])
            | Some [] => (st, [showerror "Error" "Error reading invoices: "])
            | Some (header :: rows) =>
                match mark_rows invoice_number new_status rows with
                | inl x => (st, [showerror "Error" ("Error reading invoices: " ++ x)])
                | inr invoices =>
                    (set_fs (<[filename := header :: invoices]> (fs st)) st,
                     [showinfo "Success"
                        ("Invoice #" ++ invoice_number ++ " status changed to "
                         ++ new_status ++ ".")])
                end
            end
      | _, _ => (st, [raised "IndexError"])
      end
  end.

(** *** edit_employee_info.save_employee and add_employee.save_new_employee *)

(** [os.rename(old, new)] on an existing [old]. *)
Definition rename (old new : string) (files : gmap string (list (list string)))
  : gmap string (list (list string)) :=
  match files !! old with
  | Some content => <[new := content]> (delete old files)
  | None => files
  end.

Definition save_employee (emp : nat) (id_entry name_entry : string) (st : App)
  : App * list reply :=
  match deref st emp with
  | None => (st, [raised "AttributeError"])
  | Some e =>
      match PyStr.int (PyStr.strip id_entry) with
      | None => (st, [showerror "Error" "Please enter a valid ID number."])
      | Some new_id =>
          let new_name := PyStr.strip name_entry in
          if String.eqb new_name "" then
            (st, [showwarning "Warning" "Name cannot be empty."])
          else
            match (if Z.eqb new_id (Employee.id e) then None
                   else List.find (fun o => Z.eqb (Employee.id o) new_id) (roster st)) with
            | Some other =>
                (st, [showerror "Error"
                        ("ID " ++ PyStr.str_int new_id ++ " is already used by "
                         ++ Employee.name other ++ ".")])
            | None =>
                let old_filename := Employee.get_invoice_filename e in
                let e' := Employee.set_id_name e new_id new_name in
                let st1 := set_obj emp e' st in
                let new_filename := Employee.get_invoice_filename e' in
                let st2 :=
                  if negb (String.eqb old_filename new_filename) then
                    set_fs (rename old_filename new_filename (fs st1)) st1
                  else st1 in
                save_and_load st2
                  (showinfo "Success"
                     ("Employee updated to ID " ++ PyStr.str_int new_id ++ ", Name: "
                      ++ new_name))
            end
      end
  end.

Definition save_new_employee (id_entry name_entry : string) (st : App)
  : App * list reply :=
  match PyStr.int (PyStr.strip id_entry) with
  | None => (st, [showerror "Error" "Please enter a valid ID number."])
  | Some emp_id =>
      let emp_name := PyStr.strip name_entry in
      if String.eqb emp_name "" then
        (st, [showwarning "Warning" "Name cannot be empty."])
      else
        match find_employee st emp_id with
        | Some _ =>
            (st, [showerror "Error"
                    ("Employee ID " ++ PyStr.str_int emp_id ++ " already exists.")])
        | None =>
            let new_emp := Employee.init emp_id emp_name 0 0 in
            let st1 :=
              mkApp (heap st ++ [new_emp]) (employees st ++ [length (heap st)])
                    (fs st) (today st) in
            let filename := Employee.get_invoice_filename new_emp in
            let st2 := set_fs (<[filename := [invoice_header]]> (fs st1)) st1 in
            save_and_load st2
              (showinfo "Success"
                 ("Employee " ++ emp_name ++ " (ID: " ++ PyStr.str_int emp_id
                  ++ ") added successfully!"))
        end
  end.

(** *** close_out_week.process_closeout *)

Definition digit_val (c : ascii) : option nat :=
  let n := Ascii.nat_of_ascii c in
  if ((48 <=? n) && (n <=? 57))%nat then Some (n - 48)%nat else None.

(** A [%m] or [%d] field and the [/] after it: one digit from 1 to 9, or
    two digits with a value from 1 to [max]; [%d] also takes a space before
    one digit. *)
Definition date_field (max : nat) (space : bool) (s : string) : option (nat * string) :=
  match s with
  | String a (String b r) =>
      if Ascii.eqb b "/" then
        match digit_val a with
        | Some x => if (1 <=? x)%nat then Some (x, r) else None
        | None => None
        end
      else
        match r with
        | String c r' =>
            if Ascii.eqb c "/" then
              match digit_val a, digit_val b with
              | Some x, Some y =>
                  let v := (10 * x + y)%nat in
                  if ((1 <=? v) && (v <=? max))%nat then Some (v, r') else None
              | None, Some y =>
                  if space && Ascii.eqb a " " && (1 <=? y)%nat then Some (y, r') else None
              | _, _ => None
              end
            else None
        | EmptyString => None
        end
  | _ => None
  end.

Definition year_field (s : string) : option nat :=
  match s with
  | String a (String b (String c (String d EmptyString))) =>
      match digit_val a, digit_val b, digit_val c, digit_val d with
      | Some x, Some y, Some z, Some w => Some (1000 * x + 100 * y + 10 * z + w)%nat
      | _, _, _, _ => None
      end
  | _ => None
  end.

Definition is_leap (y : nat) : bool :=
  ((y mod 4 =? 0) && negb (y mod 100 =? 0) || (y mod 400 =? 0))%nat.

Definition days_in_month (y m : nat) : nat :=
  match m with
  | 2 => if is_leap y then 29 else 28
  | 4 | 6 | 9 | 11 => 30
  | _ => 31
  end%nat.

(** Whether [datetime.strptime(s, "%m/%d/%Y")] returns. *)
Definition strptime_mdY (s : string) : bool :=
  match date_field 12 false s with
  | Some (m, r) =>
      match date_field 31 true r with
      | Some (d, r') =>
          match year_field r' with
          | Some y => ((1 <=? y) && (d <=? days_in_month y m))%nat
          | None => false
          end
      | None => false
      end
  | None => false
  end.

(** The modal date dialog: [attempts] are the texts in the entry at each
    press of "Confirm Close Out"; the dialog closes at the first one that
    is a date, and is cancelled when the attempts run out. *)
Fixpoint date_dialog (attempts : list string) : list reply * option string :=
  match attempts with
  | [] => ([], None)
  | text :: rest =>
      let payment_date := PyStr.strip text in
      if strptime_mdY payment_date then ([], Some payment_date)
      else
        let '(errors, result) := date_dialog rest in
        (showerror "Invalid Date" "Please enter date in MM/DD/YYYY format." :: errors,
         result)
  end.

Definition record_payment (e : Employee.t) (amount : Q) (payment_date : option string)
  (st : App) : App :=
  let filename := Employee.get_payment_history_filename e in
  let payment_date := default (today st) payment_date in
  set_fs (append_row filename payment_header [payment_date; PyStr.fmt2 amount] (fs st)) st.

Definition archive_invoices (e : Employee.t) (payment_date : option string) (st : App)
  : App :=
  let current_filename := Employee.get_invoice_filename e in
  match fs st !! current_filename with
  | None => st
  | Some content =>
      let archive_date :=
        match payment_date with
        | None => PyStr.replace "/" "-" (today st)
        | Some d => PyStr.replace "/" "-" d
        end in
      let archived_filename := Employee.get_archived_invoice_filename e archive_date in
      set_fs (<[current_filename := [invoice_header]]>
                (<[archived_filename := content]> (fs st))) st
  end.

(** [emp_var] is the employee picked in the combo box (its ID), when one
    is picked. *)
Definition process_closeout (emp_var : option Z) (attempts : list string) (st : App)
  : App * list reply :=
  match emp_var with
  | None => (st, [showwarning "Warning" "Please select an employee first."])
  | Some emp_id =>
      match find_employee st emp_id with
      | None => (st, [raised "AttributeError"])
      | Some emp =>
          match deref st emp with
          | None => (st, [raised "AttributeError"])
          | Some e =>
              if PyNum.le (Employee.weekly_pay e) 0 then
                (st, [showinfo "Info"
                        ("No commission or weekly pay to close out for "
                         ++ Employee.name e ++ ".")])
              else
                let '(errors, result) := date_dialog attempts in
                match result with
                | None => (st, errors)
                | Some date =>
                    let st1 := record_payment e (Employee.weekly_pay e) (Some date) st in
                    let st2 := archive_invoices e (Some date) st1 in
                    let e1 := Employee.add_weekly_pay e (Employee.weekly_pay e) in
                    let weekly_amount := Employee.weekly_pay e1 in
                    let e2 := Employee.edit_pay e1 0 in
                    let st3 := set_obj emp e2 st2 in
                    let '(st4, replies) :=
                      save_and_load st3
                        (showinfo "Success"
                           ("Weekly payout of $" ++ PyStr.fmt2 weekly_amount
                            ++ " processed for " ++ Employee.name e ++ "." ++ nl ++ nl
                            ++ "Payment Date: " ++ date ++ nl
                            ++ "Weekly pay reset to $0.00." ++ nl
                            ++ "Invoices archived and cleared.")) in
                    (st4, (errors ++ replies)%list)
                end
          end
      end
  end.

(** *** get_last_payment_date *)

(** What opening the payment history gives: no such file, a failure of
    [open] or of the reader (the store above has no such path, the
    handler's answer to it is still part of the function), or the rows. *)
Inductive opened :=
| missing
| unreadable
| reader (rows : list (list string)).

Definition open_history (st : App) (e : Employee.t) : opened :=
  match fs st !! Employee.get_payment_history_filename e with
  | None => missing
  | Some rows => reader rows
  end.

Definition last_payment_date (o : opened) : string :=
  match o with
  | missing => "Never Paid"
  | unreadable => "Never Paid"
  | reader [] => "Never Paid"
  | reader (_ :: rows) =>
      match last rows with
      | None => "Never Paid"
      | Some [] => "Never Paid"
      | Some (d :: _) => d
      end
  end.

Definition get_last_payment_date (st : App) (e : Employee.t) : string :=
  last_payment_date (open_history st e).

(** *** What view_employee_invoices loads *)

(** [invoice_data]: the rows with at least nine fields; nothing is shown
    when the file is missing or a total or commission does not parse. *)
Definition invoice_data (st : App) (e : Employee.t) : option (list (list string)) :=
  match fs st !! Employee.get_invoice_filename e with
  | Some (_ :: rows) =>
      let shown := filter (fun row => (9 <= length row)%nat) rows in
      if forallb (fun row =>
                    match row !! 4%nat ≫= PyStr.float, row !! 8%nat ≫= PyStr.float with
                    | Some _, Some _ => true
                    | _, _ => false
                    end) shown
      then Some shown else None
  | _ => None
  end.

(** ** The callbacks as transitions *)

Inductive action :=
| SaveInvoice (emp : nat) (fields : AddFields.t)
| SaveChanges (emp : nat) (invoice_row0 : list string) (fields : EditFields.t)
| ToggleInvoiceStatus (emp : nat) (invoice_row0 : list string) (new_status : string)
| SaveEmployee (emp : nat) (id_entry name_entry : string)
| SaveNewEmployee (id_entry name_entry : string)
| ProcessCloseout (emp_var : option Z) (attempts : list string)
| ClockTick (date : string).

Definition step (a : action) (st : App) : App * list reply :=
  match a with
  | SaveInvoice emp fields => save_invoice emp fields st
  | SaveChanges emp row fields => save_changes emp row fields st
  | ToggleInvoiceStatus emp row new_status => toggle_invoice_status emp row new_status st
  | SaveEmployee emp id_entry name_entry => save_employee emp id_entry name_entry st
  | SaveNewEmployee id_entry name_entry => save_new_employee id_entry name_entry st
  | ProcessCloseout emp_var attempts => process_closeout emp_var attempts st
  | ClockTick date => (mkApp (heap st) (employees st) (fs st) date, [])
  end.

(** The states the running program can be in: it starts by loading the
    employee table from whatever files are there, and then runs callbacks. *)
Inductive reachable : App -> Prop :=
| reach_init files date : reachable (fst (init files date))
| reach_step a st : reachable st -> reachable (fst (step a st)).

(** ** The invoice view and the dialogs opened from it *)

(** [viewed] is the [emp] the invoice view on screen was drawn for: its
    double-click handler opens the edit dialog on that reference. *)
Record Session := mkSession {
  app : App;
  viewed : option nat
}.

Definition succeeded (replies : list reply) : bool :=
  match replies with
  | [showinfo "Success" _] => true
  | _ => false
  end.

(** [manage_invoices.view_invoices]: the employee is looked up, and the
    view is drawn for the object found. *)
Definition view_invoices (emp_id : Z) (s : Session) : Session :=
  match find_employee (app s) emp_id with
  | Some emp => mkSession (app s) (Some emp)
  | None => s
  end.

(** [manage_invoices.add_invoice] and "Save Invoice" in the dialog it
    opens: on success the dialog closes and the view is drawn again, for
    the reference the dialog holds. *)
Definition add_invoice (emp_id : Z) (fields : AddFields.t) (s : Session) : Session :=
  match find_employee (app s) emp_id with
  | Some emp =>
      let '(st', replies) := save_invoice emp fields (app s) in
      if succeeded replies then mkSession st' (Some emp) else mkSession st' (viewed s)
  | None => s
  end.

(** The row [on_double_click] hands to the edit dialog: the first row of
    [invoice_data] with the number of the selected one. *)
Definition clicked_row (data : list (list string)) (n : nat) : option (list string) :=
  match data !! n ≫= head with
  | Some invoice_number =>
      List.find (fun inv_row =>
                   match head inv_row with
                   | Some x => String.eqb x invoice_number
                   | None => false
                   end) data
  | None => None
  end.

(** A double click on the [n]-th invoice of the view and "Save Changes" in
    the dialog it opens; on success the view is drawn again, for the same
    reference. *)
Definition edit_invoice (n : nat) (fields : EditFields.t) (s : Session) : Session :=
  match viewed s with
  | Some emp =>
      match deref (app s) emp with
      | Some e =>
          match invoice_data (app s) e with
          | Some data =>
              match clicked_row data n with
              | Some inv_row =>
                  let '(st', replies) := save_changes emp inv_row fields (app s) in
                  if succeeded replies then mkSession st' (Some emp)
                  else mkSession st' (viewed s)
              | None => s
              end
          | None => s
          end
      | None => s
      end
  | None => s
  end.

(** ** The commission previews, the pay reports and runs of callbacks *)

(** [float(text or 0)]: an empty entry counts as zero. *)
Definition float_or_0 (text : string) : option Q :=
  if String.eqb text "" then Some 0%Q else PyStr.float text.

(** [add_invoice_dialog.update_commission]: the text of the commission
    label for the entries as they are. *)
Definition update_commission (fields : AddFields.t) : string :=
  if AddFields.manual_override fields then
    match float_or_0 (AddFields.manual_commission fields) with
    | Some commission => "Commission: $" ++ PyStr.fmt2 commission ++ " (Manual)"
    | None => "Commission: $0.00"
    end
  else
    match float_or_0 (AddFields.total fields), float_or_0 (AddFields.tip fields),
          float_or_0 (AddFields.materials fields), float_or_0 (AddFields.fees fields) with
    | Some total, Some tip, Some materials, Some fees =>
        "Commission: $"
        ++ PyStr.fmt2 (Invoice.calculate_commission_static (AddFields.cc fields)
                         total tip materials fees)
        ++ " (Calculated)"
    | _, _, _, _ => "Commission: $0.00"
    end.

(** [edit_invoice_dialog.update_commission]. *)
Definition update_commission_edit (fields : EditFields.t) : string :=
  match float_or_0 (EditFields.total fields), float_or_0 (EditFields.tip fields),
        float_or_0 (EditFields.materials fields), float_or_0 (EditFields.fees fields) with
  | Some total, Some tip, Some materials, Some fees =>
      "Commission: $"
      ++ PyStr.fmt2 (Invoice.calculate_commission_static (EditFields.cc fields)
                       total tip materials fees)
  | _, _, _, _ => "Commission: $0.00"
  end.

(** The running total of a report: [total = 0], then [total += amount]
    for each employee in turn. *)
Definition total_of (amount : Employee.t -> Q) (es : list Employee.t) : Q :=
  fold_left (fun total e => (total + amount e)%Q) es 0%Q.

(** [view_weekly_pay]: the rows of the table and the text of the total
    label; [None] stands for the message shown when there is no employee. *)
Definition view_weekly_pay (st : App) : option (list (Z * string * string) * string) :=
  match roster st with
  | [] => None
  | es =>
      Some (map (fun e => (Employee.id e, Employee.name e,
                           "$" ++ PyStr.fmt2 (Employee.weekly_pay e))) es,
            "Total Weekly Pay: $" ++ PyStr.fmt2 (total_of Employee.weekly_pay es))
  end.

(** [view_ytd]: as above, with the date of the last payment in each row. *)
Definition view_ytd (st : App) : option (list (Z * string * string * string) * string) :=
  match roster st with
  | [] => None
  | es =>
      Some (map (fun e => (Employee.id e, Employee.name e,
                           "$" ++ PyStr.fmt2 (Employee.year_to_date_pay e),
                           get_last_payment_date st e)) es,
            "Total YTD Pay: $" ++ PyStr.fmt2 (total_of Employee.year_to_date_pay es))
  end.


(** ** Notions used in the statements *)

(** A text without white space: [strip] leaves it alone. *)
Fixpoint no_space (s : string) : bool :=
  match s with
  | String c r => negb (PyStr.is_space c) && no_space r
  | EmptyString => true
  end.

(** What [load_employees] makes of the row [save_employees] wrote for an
    object: amounts to the cent, not below zero, the name stripped. *)
Definition reload (e : Employee.t) : Employee.t :=
  Employee.init (Employee.id e) (PyStr.strip (Employee.name e))
    (PyNum.round2 (Employee.weekly_pay e))
    (PyNum.round2 (Employee.year_to_date_pay e)).

(** Index of the first object with the given ID. *)
Fixpoint position (emp_id : Z) (es : list Employee.t) : option nat :=
  match es with
  | [] => None
  | e :: rest =>
      if Z.eqb (Employee.id e) emp_id then Some 0%nat
      else option_map S (position emp_id rest)
  end.

(** References of [self.employees] are distinct and point to objects. *)
Definition valid_refs (st : App) : Prop :=
  NoDup (employees st) /\ Forall (fun l => is_Some (heap st !! l)) (employees st).

Definition pay_not_negative (e : Employee.t) : Prop :=
  (0 <= Employee.weekly_pay e)%Q /\ (0 <= Employee.year_to_date_pay e)%Q.

(** The rows below the header, for a file that may be missing: what the
    invoice views list. *)
Definition data_rows (files : gmap string (list (list string))) (filename : string)
  : list (list string) :=
  match files !! filename with
  | Some (_ :: rows) => rows
  | _ => []
  end.


(** A callback that leaves the objects and the list alone. *)
Definition same_objects (st st' : App) : Prop :=
  heap st' = heap st /\ employees st' = employees st.

(** The reading code of [get_last_payment_date] raises: [open] or the
    reader fails, the file has no header line, or its last row has no
    field. *)
Definition reading_fails (o : opened) : Prop :=
  o = unreadable \/ o = reader []
  \/ exists header rows, o = reader (header :: rows) /\ last rows = Some [].

Definition unique_ids (st : App) : Prop := NoDup (map Employee.id (roster st)).

(** A callback that changes the pay of the object behind [emp]: the object
    keeps its ID and name, files may change, and the list is saved and
    loaded again. *)
Definition pay_update (emp : nat) (st st' : App) : Prop :=
  st' = st
  \/ exists e e' st2,
       deref st emp = Some e /\ Employee.id e' = Employee.id e
       /\ Employee.name e' = Employee.name e /\ same_objects st st2
       /\ st' = fst (load_employees (save_employees (set_obj emp e' st2))).


(** Whether the first field of a row is the given invoice number. *)
Definition has_number (invoice_number : string) (row : list string) : bool :=
  match row with
  | n :: _ => String.eqb n invoice_number
  | [] => false
  end.



(** The view is drawn for a reference that is no longer in the list, and
    the list holds objects as the employee table stores them. *)
Definition stale_view (emp : nat) (s : Session) : Prop :=
  viewed s = Some emp /\ (emp ∉ employees (app s))
  /\ map reload (roster (app s)) = roster (app s).

(** A text in which the character [c] does not occur. *)
Fixpoint lacks (c : ascii) (s : string) : bool :=
  match s with
  | String x r => negb (Ascii.eqb x c) && lacks c r
  | EmptyString => true
  end.

Definition in_whole_cents (e : Employee.t) : Prop :=
  PyNum.whole_cents (Employee.weekly_pay e)
  /\ PyNum.whole_cents (Employee.year_to_date_pay e).

(** ** Sample data *)

Definition invoice_A1 : list string :=
  ["A1"; "Cust"; "01/02/2025"; "Paid"; "100.00"; "0.00"; "0.00"; "0.00"; "50.00"].

(** Two employees; the first has one active invoice worth a commission of
    50.00, which is her weekly pay. *)
Definition demo_files : gmap string (list (list string)) :=
  <["invoices/ann_lee_1.csv" := [invoice_header; invoice_A1]]>
    (<["employees.csv" :=
         [employees_header; ["1"; "Ann Lee"; "50.00"; "10.00"];
          ["2"; "Bob"; "0.00"; "120.50"]]]> ∅).

Definition demo : App := fst (init demo_files "01/05/2025").

Definition ann : Employee.t := Employee.mk 1 "Ann Lee" (5000 # 100) (1000 # 100).



(** * Facts *)

(** ** Numerals written by the program are read back by the program *)

Lemma lstrip_no_space s : no_space s = true -> PyStr.lstrip s = s.
Proof. destruct s as [|c r]; simpl; [done|]. destruct (PyStr.is_space c); [done|done]. Qed.

Lemma rstrip_no_space s : no_space s = true -> PyStr.rstrip s = s.
Proof.
  induction s as [|c r IH]; simpl; [done|].
  intros [Hc Hr]%andb_prop. rewrite (IH Hr).
  destruct r; [|done]. destruct (PyStr.is_space c); [done|done].
Qed.

Lemma strip_no_space s : no_space s = true -> PyStr.strip s = s.
Proof. intros H. unfold PyStr.strip. rewrite (lstrip_no_space _ H). by apply rstrip_no_space. Qed.

Lemma no_space_app a b : no_space (a ++ b) = no_space a && no_space b.
Proof. induction a as [|c r IH]; simpl; [done|]. by rewrite IH, andb_assoc. Qed.

Lemma no_space_uint d : no_space (NilEmpty.string_of_uint d) = true.
Proof. induction d; simpl; auto. Qed.

Lemma no_space_uint0 d : no_space (NilZero.string_of_uint d) = true.
Proof. destruct d; try done; apply (no_space_uint (_ _)). Qed.

Lemma digit_cases (n : N) :
  (n < 10)%N ->
  n = 0%N \/ n = 1%N \/ n = 2%N \/ n = 3%N \/ n = 4%N \/ n = 5%N \/ n = 6%N
  \/ n = 7%N \/ n = 8%N \/ n = 9%N.
Proof. lia. Qed.

Lemma two_digits (x y : N) :
  (x < 10)%N -> (y < 10)%N ->
  let s := String (PyStr.digit x) (String (PyStr.digit y) EmptyString) in
  no_space s = true /\
  exists d, NilEmpty.uint_of_string s = Some d /\ N.of_uint d = (10 * x + y)%N.
Proof.
  intros Hx Hy.
  destruct (digit_cases x Hx) as [->|[->|[->|[->|[->|[->|[->|[->|[->| ->]]]]]]]]];
  destruct (digit_cases y Hy) as [->|[->|[->|[->|[->|[->|[->|[->|[->| ->]]]]]]]]];
  (split; [reflexivity | eexists; split; reflexivity]).
Qed.

Lemma to_uint_nonnil (n : N) : N.to_uint n <> Decimal.Nil.
Proof. destruct n; [done|]. apply DecimalPos.Unsigned.to_uint_nonnil. Qed.

Lemma split_dot_uint d r :
  PyStr.split_dot (NilEmpty.string_of_uint d ++ String "." r)
  = (NilEmpty.string_of_uint d, Some r).
Proof. induction d; simpl; try rewrite IHd; reflexivity. Qed.

Lemma sign_split_uint d r :
  d <> Decimal.Nil ->
  PyStr.sign_split (NilEmpty.string_of_uint d ++ r) = (false, NilEmpty.string_of_uint d ++ r).
Proof. destruct d; [done|..]; reflexivity. Qed.

Lemma round_half_even_sign (q : Q) :
  ((0 <= q)%Q -> (0 <= PyStr.round_half_even q)%Z)
  /\ ((q < 0)%Q -> (PyStr.round_half_even q <= 0)%Z).
Proof.
  unfold PyStr.round_half_even.
  pose proof (Qfloor_le q) as H1. pose proof (Qlt_floor q) as H2.
  split; intros Hq.
  - assert (0 <= Qfloor q)%Z.
    { apply Z.lt_succ_r. rewrite Zlt_Qlt. unfold Z.succ.
      change (inject_Z 0) with 0%Q. lra. }
    destruct Qcompare; [destruct Z.even|..]; lia.
  - assert (Qfloor q < 0)%Z.
    { rewrite Zlt_Qlt. change (inject_Z 0) with 0%Q. lra. }
    destruct Qcompare; [destruct Z.even|..]; lia.
Qed.

Lemma cents_sign (q : Q) :
  ((0 <= q)%Q -> (0 <= PyStr.cents q)%Z) /\ ((q < 0)%Q -> (PyStr.cents q <= 0)%Z).
Proof.
  unfold PyStr.cents. destruct (round_half_even_sign (q * 100)) as [H1 H2].
  split; intros H; [apply H1 | apply H2]; lra.
Qed.

Lemma uint_of_fmt (n : N) :
  exists d, NilEmpty.uint_of_string (NilZero.string_of_uint (N.to_uint n)) = Some d
            /\ N.of_uint d = n.
Proof.
  exists (N.to_uint n). split; [|apply DecimalN.Unsigned.of_to].
  pose proof (to_uint_nonnil n) as Hn.
  destruct (N.to_uint n) eqn:E; try done; apply NilEmpty.usu.
Qed.

Lemma decimal_fmt (a : N) :
  PyStr.decimal (NilZero.string_of_uint (N.to_uint (a / 100)))
    (String (PyStr.digit (a / 10 mod 10)) (String (PyStr.digit (a mod 10)) EmptyString))
  = Some (Qmake (Z.of_N a) 100).
Proof.
  unfold PyStr.decimal.
  destruct (uint_of_fmt (a / 100)) as (di & -> & Hdi).
  destruct (two_digits (a / 10 mod 10) (a mod 10)) as (_ & df & Hdf & Hv);
    [apply N.mod_lt; lia .. |].
  cbv zeta in Hdf. rewrite Hdf. rewrite Nat.add_comm. simpl String.length.
  cbn [Nat.add Nat.eqb]. rewrite Hdi, Hv. f_equal.
  change (PyStr.pow10 2) with 100%positive. f_equal.
  rewrite N2Z.inj_add, N2Z.inj_mul, !N2Z.inj_mod, !N2Z.inj_div.
  pose proof (N2Z.is_nonneg a). generalize dependent (Z.of_N a). intros z Hz.
  change (Z.of_N 10) with 10%Z. change (Z.of_N 100) with 100%Z.
  Z.div_mod_to_equations. lia.
Qed.

Lemma nilzero_to_uint (n : N) :
  NilZero.string_of_uint (N.to_uint n) = NilEmpty.string_of_uint (N.to_uint n).
Proof. pose proof (to_uint_nonnil n). by destruct (N.to_uint n). Qed.

Lemma no_space_fmt2 (q : Q) : no_space (PyStr.fmt2 q) = true.
Proof.
  unfold PyStr.fmt2. rewrite !no_space_app, no_space_uint0.
  destruct (two_digits (Z.to_N (Z.abs (PyStr.cents q)) / 10 mod 10)
                       (Z.to_N (Z.abs (PyStr.cents q)) mod 10)) as [Hs _];
    [apply N.mod_lt; lia .. |].
  cbv zeta in Hs. change (no_space ("." ++ ?s)) with (no_space s). rewrite Hs.
  by destruct Qle_bool.
Qed.

Lemma float_fmt2 (q : Q) : PyStr.float (PyStr.fmt2 q) = Some (PyNum.round2 q).
Proof.
  unfold PyStr.float. rewrite (strip_no_space _ (no_space_fmt2 q)).
  unfold PyStr.fmt2, PyNum.round2. rewrite nilzero_to_uint.
  change ("." ++ ?s) with (String "." s).
  destruct (Qle_bool 0 q) eqn:Hq.
  - change ("" ++ ?s) with s.
    rewrite sign_split_uint by apply to_uint_nonnil.
    rewrite split_dot_uint, <- nilzero_to_uint. cbn [default].
    rewrite decimal_fmt. cbn [option_map]. do 2 f_equal.
    apply Qle_bool_iff in Hq. apply cents_sign in Hq. lia.
  - change ("-" ++ ?s) with (String "-" s). cbn [PyStr.sign_split].
    rewrite split_dot_uint, <- nilzero_to_uint. cbn [default].
    rewrite decimal_fmt. cbn [option_map]. unfold Qopp. cbn [Qnum Qden]. do 2 f_equal.
    assert (q < 0)%Q as Hlt.
    { apply Qnot_le_lt. intros H%Qle_bool_iff. congruence. }
    apply cents_sign in Hlt. lia.
Qed.

Lemma no_space_str_int (z : Z) : no_space (PyStr.str_int z) = true.
Proof.
  unfold PyStr.str_int. destruct (Z.to_int z); cbn [NilZero.string_of_int no_space];
    [|change (negb (PyStr.is_space "-")) with true; cbn [andb]]; apply no_space_uint0.
Qed.

Lemma to_int_cases (z : Z) :
  exists d, d <> Decimal.Nil /\ (Z.to_int z = Decimal.Pos d \/ Z.to_int z = Decimal.Neg d).
Proof.
  destruct z as [|p|p]; cbn.
  - exists (Decimal.D0 Decimal.Nil). split; [done|by left].
  - exists (Pos.to_uint p). split; [apply DecimalPos.Unsigned.to_uint_nonnil|by left].
  - exists (Pos.to_uint p). split; [apply DecimalPos.Unsigned.to_uint_nonnil|by right].
Qed.

Lemma str_int_nonempty (z : Z) : PyStr.str_int z <> "".
Proof.
  unfold PyStr.str_int. destruct (to_int_cases z) as (d & Hd & [-> | ->]); cbn; [|done].
  by destruct d.
Qed.

Lemma int_str_int (z : Z) : PyStr.int (PyStr.str_int z) = Some z.
Proof.
  unfold PyStr.int. rewrite (strip_no_space _ (no_space_str_int z)).
  assert (H : option_map Z.of_int (NilZero.int_of_string (PyStr.str_int z)) = Some z).
  { unfold PyStr.str_int. destruct (to_int_cases z) as (d & Hd & Hz).
    rewrite NilZero.isi; [cbn; f_equal; apply DecimalZ.of_to| |];
      destruct Hz as [-> | ->]; congruence. }
  unfold PyStr.str_int in *. destruct (to_int_cases z) as (d & Hd & [E | E]);
    rewrite E in *; cbn [NilZero.string_of_int] in *.
  - destruct d; try done; exact H.
  - exact H.
Qed.

(** ** Saving and loading the employee table *)

Lemma parse_employee_row (e : Employee.t) :
  parse_employee (employee_row e) = Some (reload e).
Proof.
  unfold parse_employee, employee_row.
  rewrite (strip_no_space _ (no_space_str_int _)), !(strip_no_space _ (no_space_fmt2 _)).
  destruct (String.eqb_spec (PyStr.str_int (Employee.id e)) "") as [E|_].
  { by apply str_int_nonempty in E. }
  rewrite int_str_int, !float_fmt2. reflexivity.
Qed.

Lemma omap_cons_Some {A B} (f : A -> option B) (x : A) (y : B) (l : list A) :
  f x = Some y -> omap f (x :: l) = y :: omap f l.
Proof. intros H. change (omap f (x :: l)) with (match f x with Some y => y :: omap f l | None => omap f l end). by rewrite H. Qed.

Lemma omap_parse_rows (es : list Employee.t) :
  omap parse_employee (map employee_row es) = map reload es.
Proof.
  induction es as [|e es IH]; [done|]. cbn [map].
  rewrite (omap_cons_Some _ _ _ _ (parse_employee_row e)), IH. done.
Qed.

Lemma roster_fresh (h new : list Employee.t) files date :
  roster (mkApp (h ++ new) (seq (length h) (length new)) files date) = new.
Proof.
  unfold roster. cbn [heap employees]. revert h.
  induction new as [|x new IH]; intros h; [done|].
  cbn [length seq].
  rewrite (omap_cons_Some _ _ x); [|by rewrite lookup_app_r, Nat.sub_diag by lia].
  f_equal. specialize (IH (h ++ [x])%list).
  rewrite <- app_assoc, length_app in IH. cbn in IH.
  rewrite Nat.add_1_r in IH. exact IH.
Qed.

Lemma load_save (st : App) :
  load_employees (save_employees st)
  = (mkApp (heap st ++ map reload (roster st))
           (seq (length (heap st)) (length (map reload (roster st))))
           (<["employees.csv" := employees_header :: map employee_row (roster st)]> (fs st))
           (today st), None).
Proof.
  unfold load_employees, save_employees, set_fs. cbn [fs heap today].
  rewrite lookup_insert_eq, omap_parse_rows. reflexivity.
Qed.

Lemma save_and_load_eq (st : App) (done : reply) :
  save_and_load st done = (fst (load_employees (save_employees st)), [done]).
Proof. unfold save_and_load. rewrite load_save. reflexivity. Qed.

Lemma roster_load_save (st : App) :
  roster (fst (load_employees (save_employees st))) = map reload (roster st).
Proof. rewrite load_save. cbn [fst]. apply roster_fresh. Qed.

Lemma fs_load_save (st : App) :
  fs (fst (load_employees (save_employees st)))
  = <["employees.csv" := employees_header :: map employee_row (roster st)]> (fs st).
Proof. rewrite load_save. reflexivity. Qed.

(** ** References and the roster *)

Lemma valid_refs_load (st : App) : valid_refs (fst (load_employees st)).
Proof.
  unfold load_employees, valid_refs.
  destruct (fs st !! "employees.csv") as [[|hd rows]|]; cbn [fst employees heap];
    try (split; [apply NoDup_nil_2 | apply Forall_nil_2]).
  split; [apply NoDup_seq|].
  apply Forall_forall. intros l [Hl1 Hl2]%elem_of_seq.
  apply lookup_lt_is_Some. rewrite length_app. lia.
Qed.

Lemma roster_lookup (st : App) (i l : nat) :
  valid_refs st -> employees st !! i = Some l -> roster st !! i = heap st !! l.
Proof.
  intros [_ Hv]. unfold roster. revert i.
  induction Hv as [|k refs [e He] Hv IH]; intros i Hi; [done|].
  rewrite (omap_cons_Some _ _ e) by done.
  destruct i as [|i]; cbn in *; [congruence|]. by apply IH.
Qed.

Lemma roster_length (st : App) : valid_refs st -> length (roster st) = length (employees st).
Proof.
  intros [_ Hv]. unfold roster.
  induction Hv as [|k refs [e He] Hv IH]; [done|].
  rewrite (omap_cons_Some _ _ e) by done. cbn. by rewrite IH.
Qed.

(** Writing to an object that is not in the list does not show in the
    roster. *)
Lemma roster_set_obj_other (st : App) (l : nat) (e' : Employee.t) :
  l ∉ employees st -> roster (set_obj l e' st) = roster st.
Proof.
  unfold roster, set_obj. cbn [heap employees].
  induction (employees st) as [|r refs IH]; intros Hl; [done|].
  apply not_elem_of_cons in Hl as [Hr Hl].
  change (omap ?f (r :: refs))
    with (match f r with Some y => y :: omap f refs | None => omap f refs end).
  cbn beta. rewrite list_lookup_insert_ne by done. by rewrite IH.
Qed.

Lemma roster_set_obj (st : App) (i l : nat) (e' : Employee.t) :
  valid_refs st -> employees st !! i = Some l ->
  roster (set_obj l e' st) = <[i := e']> (roster st).
Proof.
  intros [Hnd Hv]. unfold roster, set_obj. cbn [heap employees].
  revert i. induction Hv as [|k refs [e He] Hv IH]; intros i Hi; [done|].
  apply NoDup_cons in Hnd as [Hk Hnd].
  destruct i as [|i]; cbn in Hi.
  - injection Hi as ->.
    rewrite (omap_cons_Some _ _ e') by (apply list_lookup_insert_eq; by eapply lookup_lt_Some).
    rewrite (omap_cons_Some _ _ e) by done. cbn. f_equal.
    apply (roster_set_obj_other (mkApp (heap st) refs (fs st) (today st)) l e' Hk).
  - assert (k <> l) by (intros ->; apply Hk; by eapply list_elem_of_lookup_2).
    rewrite (omap_cons_Some _ _ e) by (by rewrite list_lookup_insert_ne).
    rewrite (omap_cons_Some _ _ e) by done. cbn. f_equal. by apply IH.
Qed.

(** [find_employee] in terms of the roster. *)
Lemma find_in_position (h : list Employee.t) (refs : list nat) (emp_id : Z) :
  Forall (fun l => is_Some (h !! l)) refs ->
  find_in h refs emp_id
  = position emp_id (omap (fun l => h !! l) refs) ≫= (fun i => refs !! i).
Proof.
  induction 1 as [|k refs [e He] Hv IH]; [done|].
  rewrite (omap_cons_Some _ _ e) by done. cbn [find_in position]. rewrite He.
  destruct (Employee.id e =? emp_id)%Z; [done|]. rewrite IH.
  by destruct (position emp_id _).
Qed.

Lemma find_employee_roster (st : App) (emp_id : Z) (emp : nat) :
  valid_refs st ->
  find_employee st emp_id = Some emp <->
  exists i, position emp_id (roster st) = Some i /\ employees st !! i = Some emp.
Proof.
  intros [_ Hv]. unfold find_employee. rewrite find_in_position by done.
  fold (roster st). destruct (position emp_id (roster st)) as [i|]; cbn.
  - split; [intros H; by exists i | intros (j & [= <-] & H); done].
  - split; [done | intros (j & [=] & _)].
Qed.

Lemma position_lookup (emp_id : Z) (es : list Employee.t) (i : nat) :
  position emp_id es = Some i -> exists e, es !! i = Some e /\ Employee.id e = emp_id.
Proof.
  revert i. induction es as [|e es IH]; intros i; [done|]. cbn.
  destruct (Z.eqb_spec (Employee.id e) emp_id) as [E|E].
  - intros [= <-]. by exists e.
  - destruct (position emp_id es) as [j|]; [|done]. intros [= <-].
    destruct (IH j eq_refl) as (e' & ? & ?). by exists e'.
Qed.

Lemma position_same_ids (emp_id : Z) (es es' : list Employee.t) :
  map Employee.id es' = map Employee.id es -> position emp_id es' = position emp_id es.
Proof.
  revert es'. induction es as [|e es IH]; intros [|e' es'] H; try done.
  injection H as H1 H2. cbn. rewrite H1, (IH _ H2). done.
Qed.

Lemma ids_reload (es : list Employee.t) :
  map Employee.id (map reload es) = map Employee.id es.
Proof. rewrite map_map. reflexivity. Qed.

Lemma ids_insert (es : list Employee.t) (i : nat) (e e' : Employee.t) :
  es !! i = Some e -> Employee.id e' = Employee.id e ->
  map Employee.id (<[i := e']> es) = map Employee.id es.
Proof.
  intros Hi Hid. rewrite list_fmap_insert, Hid.
  apply list_insert_id. by rewrite list_lookup_fmap, Hi.
Qed.

(** ** Shape of the transitions *)

(** A callback either leaves the objects and the list alone, or ends by
    reloading the list. *)
Lemma step_shape (a : action) (st : App) :
  same_objects st (fst (step a st))
  \/ exists st0, fst (step a st) = fst (load_employees st0).
Proof.
  destruct a; cbn [step];
    unfold save_invoice, save_changes, toggle_invoice_status, save_employee,
      save_new_employee, process_closeout;
    repeat (rewrite save_and_load_eq || case_match);
    cbn [fst];
    first [ by left | right; eexists; reflexivity ].
Qed.

Lemma reachable_valid_refs (st : App) : reachable st -> valid_refs st.
Proof.
  induction 1 as [files date|a st _ IH]; [apply valid_refs_load|].
  destruct (step_shape a st) as [[Hh He]|[st0 ->]]; [|apply valid_refs_load].
  destruct IH as [Hnd Hv]. split; rewrite He; [done|]. by rewrite Hh.
Qed.

Lemma max0_not_negative (x : Q) : (0 <= PyNum.max0 x)%Q.
Proof.
  unfold PyNum.max0, PyNum.lt. destruct (Qle_bool x 0) eqn:E; cbn; [lra|].
  destruct (Qlt_le_dec 0 x) as [H|H]; [lra|]. apply Qle_bool_iff in H. congruence.
Qed.

Lemma parsed_not_negative (rows : list (list string)) :
  Forall pay_not_negative (omap parse_employee rows).
Proof.
  induction rows as [|row rows IH]; [constructor|].
  change (omap parse_employee (row :: rows))
    with (match parse_employee row with
          | Some y => y :: omap parse_employee rows
          | None => omap parse_employee rows
          end).
  destruct (parse_employee row) as [e|] eqn:E; [|done].
  constructor; [|done]. unfold parse_employee in E.
  repeat case_match; simplify_option_eq.
  split; apply max0_not_negative.
Qed.

Lemma load_not_negative (st : App) :
  Forall pay_not_negative (roster (fst (load_employees st))).
Proof.
  unfold load_employees.
  destruct (fs st !! "employees.csv") as [[|hd rows]|]; cbn [fst]; try constructor.
  rewrite roster_fresh. apply parsed_not_negative.
Qed.

(** ** Files *)

(** Paths of different kinds differ in their first character. *)
Ltac path_ne :=
  unfold Employee.get_invoice_filename, Employee.get_payment_history_filename,
    Employee.get_archived_invoice_filename;
  cbn [append]; discriminate.


Lemma append_row_lookup_ne (f f' : string) (hdr row : list string) files :
  f <> f' -> append_row f hdr row files !! f' = files !! f'.
Proof.
  intros Hne. unfold append_row. destruct (files !! f); by rewrite lookup_insert_ne.
Qed.

Lemma replace_idem (a b : ascii) (s : string) :
  a <> b -> PyStr.replace a b (PyStr.replace a b s) = PyStr.replace a b s.
Proof.
  intros Hab. induction s as [|c r IH]; [done|]. cbn. rewrite IH. f_equal.
  destruct (Ascii.eqb_spec c a) as [->|Hc].
  - destruct (Ascii.eqb_spec b a); congruence.
  - destruct (Ascii.eqb_spec c a); congruence.
Qed.

Lemma archive_name_idem (e : Employee.t) (d : string) :
  Employee.get_archived_invoice_filename e (PyStr.replace "/" "-" d)
  = Employee.get_archived_invoice_filename e d.
Proof.
  unfold Employee.get_archived_invoice_filename. by rewrite replace_idem.
Qed.

Lemma archive_invoices_objects (e : Employee.t) (d : option string) (st : App) :
  same_objects st (archive_invoices e d st).
Proof. unfold archive_invoices. by destruct (fs st !! _). Qed.

Lemma same_objects_roster (st st' : App) : same_objects st st' -> roster st' = roster st.
Proof. intros [H1 H2]. unfold roster. by rewrite H1, H2. Qed.

Lemma same_objects_valid (st st' : App) :
  same_objects st st' -> valid_refs st -> valid_refs st'.
Proof. intros [H1 H2] [? ?]. split; rewrite H2; [done|by rewrite H1]. Qed.

Lemma same_objects_set_fs (st : App) files : same_objects st (set_fs files st).
Proof. by split. Qed.

(** ** Writing one object through and reloading *)

Lemma commit_roster (st st2 : App) (i emp : nat) (e2 : Employee.t) :
  valid_refs st -> same_objects st st2 -> employees st !! i = Some emp ->
  roster (fst (load_employees (save_employees (set_obj emp e2 st2))))
  = map reload (<[i := e2]> (roster st)).
Proof.
  intros Hv Hso Hi. rewrite roster_load_save. f_equal.
  rewrite <- (same_objects_roster _ _ Hso).
  apply roster_set_obj; [by eapply same_objects_valid|].
  destruct Hso as [_ ->]. done.
Qed.

Lemma find_after_reload (st' : App) (emp_id : Z) (i : nat) (es : list Employee.t)
  (e : Employee.t) :
  valid_refs st' -> roster st' = es -> position emp_id es = Some i -> es !! i = Some e ->
  exists emp', find_employee st' emp_id = Some emp' /\ deref st' emp' = Some e.
Proof.
  intros Hv Hr Hp He.
  assert (is_Some (employees st' !! i)) as [emp' Hemp'].
  { apply lookup_lt_is_Some. rewrite <- roster_length, Hr by done. by eapply lookup_lt_Some. }
  exists emp'. split.
  - apply find_employee_roster; [done|]. exists i. by rewrite Hr.
  - unfold deref. rewrite <- (roster_lookup st' i emp') by done. by rewrite Hr.
Qed.

Lemma find_before (st : App) (emp_id : Z) (emp : nat) (e : Employee.t) :
  valid_refs st -> find_employee st emp_id = Some emp -> deref st emp = Some e ->
  exists i, position emp_id (roster st) = Some i /\ employees st !! i = Some emp
            /\ roster st !! i = Some e /\ Employee.id e = emp_id.
Proof.
  intros Hv Hf Hd. apply find_employee_roster in Hf as (i & Hp & Hi); [|done].
  exists i. repeat split; try done.
  - by rewrite (roster_lookup st i emp).
  - destruct (position_lookup _ _ _ Hp) as (e0 & He0 & Hid).
    rewrite (roster_lookup st i emp) in He0 by done. unfold deref in Hd. congruence.
Qed.

(** ** Amounts in whole cents *)

Lemma round_half_even_int (q : Q) (c : Z) : (q == inject_Z c)%Q -> PyStr.round_half_even q = c.
Proof.
  intros Hq. unfold PyStr.round_half_even.
  assert (Qfloor q = c) as ->.
  { rewrite Hq. apply Qfloor_Z. }
  assert ((q - inject_Z c ?= 1 # 2)%Q = Lt) as ->; [|done].
  apply -> Qlt_alt. lra.
Qed.

Lemma round2_whole_cents (q : Q) : PyNum.whole_cents q -> (PyNum.round2 q == q)%Q.
Proof.
  intros [c Hc]. unfold PyNum.round2, PyStr.cents.
  rewrite (round_half_even_int (q * 100) c); [by symmetry|].
  rewrite Hc. unfold Qeq. cbn. lia.
Qed.

Lemma whole_cents_plus (a b : Q) :
  PyNum.whole_cents a -> PyNum.whole_cents b -> PyNum.whole_cents (a + b).
Proof.
  intros [x Hx] [y Hy]. exists (x + y)%Z.
  rewrite Hx, Hy. unfold Qeq. cbn. lia.
Qed.

Lemma round2_not_negative (q : Q) : (0 <= q)%Q -> (0 <= PyNum.round2 q)%Q.
Proof.
  intros H. apply cents_sign in H. unfold PyNum.round2, Qle. cbn. lia.
Qed.

Lemma max0_id (x : Q) : (0 <= x)%Q -> (PyNum.max0 x == x)%Q.
Proof.
  intros H. unfold PyNum.max0, PyNum.lt. destruct (Qle_bool x 0) eqn:E; cbn; [|reflexivity].
  apply Qle_bool_iff in E. lra.
Qed.

Lemma max0_round2 (x : Q) : (0 <= x)%Q -> (PyNum.max0 (PyNum.round2 x) == PyNum.round2 x)%Q.
Proof. intros H. by apply max0_id, round2_not_negative. Qed.


(** ** Pay is never negative in a reachable state *)

Lemma reachable_not_negative (st : App) :
  reachable st -> Forall pay_not_negative (roster st).
Proof.
  induction 1 as [files date|a st _ IH]; [apply load_not_negative|].
  destruct (step_shape a st) as [Hso|[st0 ->]]; [|apply load_not_negative].
  by rewrite (same_objects_roster _ _ Hso).
Qed.


(** ** Close-out *)

Lemma le_0_false (w : Q) : (0 < w)%Q -> PyNum.le w 0 = false.
Proof.
  intros H. unfold PyNum.le. destruct (Qle_bool w 0) eqn:E; [|done].
  apply Qle_bool_iff in E. lra.
Qed.


Lemma closeout_guarded (st : App) (emp_id : Z) (emp : nat) (e : Employee.t)
  (attempts : list string) :
  find_employee st emp_id = Some emp -> deref st emp = Some e ->
  (Employee.weekly_pay e <= 0)%Q ->
  process_closeout (Some emp_id) attempts st
  = (st, [showinfo "Info"
            ("No commission or weekly pay to close out for " ++ Employee.name e ++ ".")]).
Proof.
  intros Hf Hd Hw. unfold process_closeout. rewrite Hf, Hd.
  unfold PyNum.le. by rewrite (proj2 (Qle_bool_iff _ _) Hw).
Qed.

Section ConfirmedCloseout.

(** A close-out for the employee with ID [emp_id], whose object is [e] and
    whose weekly pay is above zero, confirmed in the dialog with [date]. *)
Variables (st : App) (emp_id : Z) (emp : nat) (e : Employee.t).
Variables (attempts : list string) (errors : list reply) (date : string).
Hypothesis found : find_employee st emp_id = Some emp.
Hypothesis object : deref st emp = Some e.
Hypothesis owed : (0 < Employee.weekly_pay e)%Q.
Hypothesis confirmed : date_dialog attempts = (errors, Some date).

Let W : Q := Employee.weekly_pay e.
Let st' : App := fst (process_closeout (Some emp_id) attempts st).
Let paid : Employee.t := Employee.edit_pay (Employee.add_weekly_pay e W) 0.

Lemma closeout_confirmed :
  st' = fst (load_employees (save_employees
               (set_obj emp paid
                  (archive_invoices e (Some date) (record_payment e W (Some date) st))))).
Proof.
  subst st'. unfold process_closeout.
  rewrite found, object, (le_0_false _ owed), confirmed, save_and_load_eq. reflexivity.
Qed.

Lemma closeout_employee :
  reachable st ->
  exists emp', find_employee st' emp_id = Some emp' /\ deref st' emp' = Some (reload paid).
Proof.
  intros Hr. rewrite closeout_confirmed.
  pose proof (reachable_valid_refs _ Hr) as Hv.
  destruct (find_before _ _ _ _ Hv found object) as (i & Hp & Hi & He & Hid).
  set (st2 := archive_invoices _ _ _).
  assert (same_objects st st2) as Hso.
  { subst st2. destruct (archive_invoices_objects e (Some date)
      (record_payment e W (Some date) st)) as [H1 H2].
    split; [by rewrite H1|by rewrite H2]. }
  eapply (find_after_reload _ emp_id i).
  - apply valid_refs_load.
  - by apply commit_roster.
  - rewrite (position_same_ids emp_id (<[i := paid]> (roster st))) by apply ids_reload.
    rewrite (position_same_ids emp_id (roster st)); [done|].
    by apply (ids_insert _ _ e).
  - rewrite list_lookup_fmap, list_lookup_insert_eq; [done|]. by eapply lookup_lt_Some.
Qed.



End ConfirmedCloseout.

(** ** Editing an invoice *)

(** The state a successful edit ends in. *)
Lemma edit_saved (st : App) (emp : nat) (e : Employee.t) (invoice_row0 : list string)
  (fields : EditFields.t) (old_number msg : string) (C_old t tp m f : Q) :
  deref st emp = Some e ->
  old_values invoice_row0 = inr (old_number, C_old) ->
  PyStr.float (EditFields.total fields) = Some t ->
  PyStr.float (EditFields.tip fields) = Some tp ->
  PyStr.float (EditFields.materials fields) = Some m ->
  PyStr.float (EditFields.fees fields) = Some f ->
  snd (save_changes emp invoice_row0 fields st) = [showinfo "Success" msg] ->
  exists files,
    fst (save_changes emp invoice_row0 fields st)
    = fst (load_employees (save_employees
        (set_obj emp
           (Employee.set_weekly_pay e
              (Employee.weekly_pay e
               + (Invoice.calculate_commission_static (EditFields.cc fields) t tp m f
                  - C_old)))
           (set_fs files st)))).
Proof.
  intros Hd Ho Ht Htp Hm Hf. unfold save_changes. rewrite Hd, Ho, Ht, Htp, Hm, Hf.
  repeat case_match; cbn [snd fst]; try discriminate.
  intros _. rewrite save_and_load_eq. eexists. reflexivity.
Qed.

(** An edit saved through a reference that is not in the list writes the
    invoice file and leaves the pay of every employee of the list as the
    employee table stores it. *)
Lemma edit_through_stale_reference (st : App) (emp : nat) (e : Employee.t)
  (invoice_row0 : list string) (fields : EditFields.t) (old_number msg : string)
  (C_old t tp m f : Q) :
  emp ∉ employees st ->
  deref st emp = Some e ->
  old_values invoice_row0 = inr (old_number, C_old) ->
  PyStr.float (EditFields.total fields) = Some t ->
  PyStr.float (EditFields.tip fields) = Some tp ->
  PyStr.float (EditFields.materials fields) = Some m ->
  PyStr.float (EditFields.fees fields) = Some f ->
  snd (save_changes emp invoice_row0 fields st) = [showinfo "Success" msg] ->
  roster (fst (save_changes emp invoice_row0 fields st)) = map reload (roster st).
Proof.
  intros Hn Hd Ho Ht Htp Hm Hf Hs.
  destruct (edit_saved _ _ _ _ _ _ _ _ _ _ _ _ Hd Ho Ht Htp Hm Hf Hs) as [files ->].
  rewrite roster_load_save. f_equal. by rewrite roster_set_obj_other.
Qed.

Lemma lt_35_spec (materials : Q) :
  ((materials < 35)%Q -> PyNum.lt materials 35 = true)
  /\ ((35 <= materials)%Q -> PyNum.lt materials 35 = false).
Proof.
  unfold PyNum.lt. split; intros H.
  - destruct (Qle_bool 35 materials) eqn:E; [|done]. apply Qle_bool_iff in E. lra.
  - apply Qle_bool_iff in H. by rewrite H.
Qed.


(** * The claims *)

(** C1.  With the credit-card flag set, the commission is
    [(total - materials - fees) / 2 + tip], whatever the materials are: the
    threshold on materials is not consulted. *)
Theorem commission_credit_card (total tip materials fees : Q) :
  Invoice.calculate_commission_static true total tip materials fees
  = ((total - materials - fees) / 2 + tip)%Q
  /\ forall number customer date employee_name status,
       Invoice.commission
         (Invoice.init number customer date employee_name status true
                       total tip materials fees)
       = ((total - materials - fees) / 2 + tip)%Q.
Proof. split; reflexivity. Qed.

(** C2.  Without a credit card the commission is [(total - fees) / 2 + tip]
    when materials are below 35, and
    [(total - materials - fees) / 2 + tip + materials] from 35 on; at
    exactly 35 the second formula applies. *)
Theorem commission_no_card (total tip materials fees : Q) :
  ((materials < 35)%Q ->
   Invoice.calculate_commission_static false total tip materials fees
   = ((total - fees) / 2 + tip)%Q)
  /\ ((35 <= materials)%Q ->
      Invoice.calculate_commission_static false total tip materials fees
      = ((total - materials - fees) / 2 + tip + materials)%Q)
  /\ Invoice.calculate_commission_static false total tip 35 fees
     = ((total - 35 - fees) / 2 + tip + 35)%Q.
Proof.
  unfold Invoice.calculate_commission_static.
  split; [|split].
  - intros H. by rewrite (proj1 (lt_35_spec materials) H).
  - intros H. by rewrite (proj2 (lt_35_spec materials) H).
  - reflexivity.
Qed.

Lemma commission_no_card_witness :
  Invoice.calculate_commission_static false 200 20 (3499 # 100) 10
  = ((200 - 10) / 2 + 20)%Q
  /\ Invoice.calculate_commission_static false 200 20 50 10
     = ((200 - 50 - 10) / 2 + 20 + 50)%Q.
Proof.
  split.
  - apply (commission_no_card 200 20 (3499 # 100) 10). unfold Qlt. cbn. lia.
  - apply (commission_no_card 200 20 50 10). unfold Qle. cbn. lia.
Defined.



(** C4.  A close-out for an employee whose weekly pay is not above zero is
    refused with an information box and changes nothing at all: the state
    returned is the state given (no payment record, no archive, same
    active invoices, same pay).  Right after a confirmed close-out the
    weekly pay is zero, so closing out again is such a no-op. *)
Theorem closeout_guard_noop (st : App) (emp_id : Z) (emp : nat) (e : Employee.t)
  (attempts attempts' : list string) :
  reachable st ->
  find_employee st emp_id = Some emp -> deref st emp = Some e ->
  ((Employee.weekly_pay e <= 0)%Q ->
   process_closeout (Some emp_id) attempts st
   = (st, [showinfo "Info"
             ("No commission or weekly pay to close out for " ++ Employee.name e ++ ".")]))
  /\ (forall errors date,
        (0 < Employee.weekly_pay e)%Q ->
        date_dialog attempts = (errors, Some date) ->
        let st' := fst (process_closeout (Some emp_id) attempts st) in
        process_closeout (Some emp_id) attempts' st'
        = (st', [showinfo "Info"
                   ("No commission or weekly pay to close out for "
                    ++ PyStr.strip (Employee.name e) ++ ".")])).
Proof.
  intros Hr Hf Hd. split.
  - by apply (closeout_guarded st emp_id emp).
  - intros errors date Hw Hdlg st'.
    destruct (closeout_employee _ _ _ _ _ _ _ Hf Hd Hw Hdlg Hr) as (emp' & Hf' & Hd').
    fold st' in Hf', Hd'.
    rewrite (closeout_guarded st' emp_id emp' _ attempts' Hf' Hd'); [reflexivity|].
    vm_compute. discriminate.
Qed.

Lemma closeout_guard_noop_witness :
  process_closeout (Some 2%Z) ["01/05/2025"] demo
  = (demo, [showinfo "Info" "No commission or weekly pay to close out for Bob."])
  /\ let st' := fst (process_closeout (Some 1%Z) ["01/05/2025"] demo) in
     process_closeout (Some 1%Z) ["01/06/2025"] st'
     = (st', [showinfo "Info" "No commission or weekly pay to close out for Ann Lee."]).
Proof.
  split.
  - refine (proj1 (closeout_guard_noop demo 2 1 (Employee.mk 2 "Bob" 0 (12050 # 100))
                     ["01/05/2025"] [] _ _ _) _);
      [exact (reach_init demo_files "01/05/2025") | reflexivity | reflexivity
      | vm_compute; discriminate].
  - refine (proj2 (closeout_guard_noop demo 1 0 ann ["01/05/2025"] ["01/06/2025"] _ _ _)
              [] "01/05/2025" _ _);
      [exact (reach_init demo_files "01/05/2025") | reflexivity | reflexivity
      | reflexivity | reflexivity].
Defined.









(** The other way C7 fails, which the statement above leaves out.  After
    "Save Invoice" the list holds new objects, but the invoice view is
    drawn again for the reference the dialog was opened with, and the edit
    dialog opened from that view adds the delta to an object that is no
    longer in the list.  Here B1 (commission 20.00) is added for employee
    1, then A1 is edited from the view, from commission 50.00 to 100.00:
    the invoice file has the new commission and the weekly pay stays at
    70.00.  Done from a view opened with "View Invoices", the same edit
    takes the weekly pay to 120.00. *)
Example edit_after_add_is_lost :
  let add := AddFields.mk "B1" "Cust" "01/03/2025" "Paid" false "" false "40" "0" "0" "0" in
  let edit := EditFields.mk "A1" "Cust" "01/02/2025" "Paid" false "200" "0" "0" "0" in
  let s1 := add_invoice 1 add (mkSession demo None) in
  let s2 := edit_invoice 0 edit s1 in
  let s2' := edit_invoice 0 edit (view_invoices 1 s1) in
  viewed s1 = Some 0%nat
  /\ employees (app s1) = [2; 3]%nat
  /\ (Employee.weekly_pay <$> roster (app s1)) = [7000 # 100; 0]%Q
  /\ data_rows (fs (app s2)) "invoices/ann_lee_1.csv"
     = [["A1"; "Cust"; "01/02/2025"; "Paid"; "200.00"; "0.00"; "0.00"; "0.00"; "100.00"];
        ["B1"; "Cust"; "01/03/2025"; "Paid"; "40.00"; "0.00"; "0.00"; "0.00"; "20.00"]]
  /\ (Employee.weekly_pay <$> roster (app s2)) = [7000 # 100; 0]%Q
  /\ data_rows (fs (app s2')) "invoices/ann_lee_1.csv"
     = data_rows (fs (app s2)) "invoices/ann_lee_1.csv"
  /\ (Employee.weekly_pay <$> roster (app s2')) = [12000 # 100; 0]%Q.
Proof.
  intros add edit s1 s2 s2'.
  repeat (split; [reflexivity|]). reflexivity.
Qed.

(** C8.  Setting an invoice to the status its row already shows changes
    nothing: no file is written, no object is touched, and the user gets
    an information box. *)
Theorem toggle_same_status (st : App) (emp : nat) (e : Employee.t)
  (invoice_row0 : list string) (invoice_number status : string) :
  deref st emp = Some e ->
  invoice_row0 !! 0%nat = Some invoice_number ->
  invoice_row0 !! 3%nat = Some status ->
  toggle_invoice_status emp invoice_row0 status st
  = (st, [showinfo "Info" ("Invoice is already marked as " ++ status ++ ".")]).
Proof.
  intros Hd H0 H3. unfold toggle_invoice_status. rewrite Hd, H0, H3.
  by rewrite String.eqb_refl.
Qed.

Lemma toggle_same_status_witness :
  toggle_invoice_status 0 invoice_A1 "Paid" demo
  = (demo, [showinfo "Info" "Invoice is already marked as Paid."]).
Proof.
  apply (toggle_same_status demo 0 ann invoice_A1 "A1" "Paid"); reflexivity.
Defined.

(** C9.  In every state the program reaches, each employee of the list has
    a weekly pay and a year-to-date pay that are not negative: objects are
    built with [max(0, ...)], and every callback that changes pay reloads
    the list.  The formula itself takes any amounts and can be negative. *)
Theorem pay_never_negative (st : App) :
  reachable st ->
  Forall pay_not_negative (roster st)
  /\ (forall emp_id name w y, pay_not_negative (Employee.init emp_id name w y))
  /\ (forall e w, 0 <= Employee.weekly_pay (Employee.edit_pay e w))%Q
  /\ (Invoice.calculate_commission_static false 0 0 0 120 < 0)%Q.
Proof.
  intros Hr. split; [by apply reachable_not_negative|]. split; [|split].
  - intros. split; apply max0_not_negative.
  - intros. apply max0_not_negative.
  - reflexivity.
Qed.

(** The state after the edit that takes A1 to a commission of -60. *)
Lemma pay_never_negative_witness :
  let fields := EditFields.mk "A1" "Cust" "01/02/2025" "Paid" false "0" "0" "0" "120" in
  Forall pay_not_negative (roster (fst (step (SaveChanges 0 invoice_A1 fields) demo))).
Proof.
  intros fields.
  exact (proj1 (pay_never_negative _
                  (reach_step (SaveChanges 0 invoice_A1 fields) demo
                     (reach_init demo_files "01/05/2025")))).
Defined.

(** C10.  The last payment date is ["Never Paid"] when the history file is
    missing, holds the header only, or cannot be read; otherwise it is the
    first field of the last row. *)
Theorem last_payment_date_cases (st : App) (e : Employee.t) (o : opened) :
  get_last_payment_date st e = last_payment_date (open_history st e)
  /\ (o = missing \/ (exists header, o = reader [header]) \/ reading_fails o ->
      last_payment_date o = "Never Paid")
  /\ (~ (o = missing \/ (exists header, o = reader [header]) \/ reading_fails o) ->
      exists header rows date rest,
        o = reader (header :: rows) /\ last rows = Some (date :: rest)
        /\ last_payment_date o = date).
Proof.
  split; [reflexivity|]. split.
  - intros [->|[[header ->]|[->|[->|(header & rows & -> & Hl)]]]]; try reflexivity.
    cbn. by rewrite Hl.
  - intros Hn. destruct o as [| |[|header rows]].
    + destruct Hn. by left.
    + destruct Hn. right; right. by left.
    + destruct Hn. right; right. right. by left.
    + destruct (last rows) as [[|date rest]|] eqn:Hl.
      * destruct Hn. right; right. right; right. by exists header, rows.
      * exists header, rows, date, rest. cbn. by rewrite Hl.
      * destruct Hn. right; left. exists header.
        apply last_None in Hl. by subst.
Qed.

Lemma last_payment_date_cases_witness :
  get_last_payment_date demo ann = "Never Paid"
  /\ get_last_payment_date (fst (process_closeout (Some 1%Z) ["01/05/2025"] demo)) ann
     = "01/05/2025".
Proof.
  split.
  - rewrite (proj1 (last_payment_date_cases demo ann missing)).
    apply (proj1 (proj2 (last_payment_date_cases demo ann missing))). by left.
  - rewrite (proj1 (last_payment_date_cases _ ann missing)). reflexivity.
Defined.

(** * Further properties *)

(** ** The employee table *)

Lemma rstrip_cons (c : ascii) (r : string) :
  PyStr.rstrip (String c r)
  = match PyStr.rstrip r with
    | EmptyString => if PyStr.is_space c then EmptyString else String c EmptyString
    | r' => String c r'
    end.
Proof. reflexivity. Qed.

Lemma rstrip_idem (s : string) : PyStr.rstrip (PyStr.rstrip s) = PyStr.rstrip s.
Proof.
  induction s as [|c r IH]; [done|]. rewrite rstrip_cons.
  destruct (PyStr.rstrip r) as [|c' r'] eqn:E.
  - destruct (PyStr.is_space c) eqn:Hc; [done|]. rewrite rstrip_cons. cbn. by rewrite Hc.
  - rewrite rstrip_cons, IH. done.
Qed.

Lemma lstrip_head (s : string) :
  match PyStr.lstrip s with
  | String c _ => PyStr.is_space c = false
  | EmptyString => True
  end.
Proof.
  induction s as [|c r IH]; [done|]. cbn. destruct (PyStr.is_space c) eqn:E; [done|done].
Qed.

Lemma lstrip_rstrip (s : string) :
  match s with String c _ => PyStr.is_space c = false | EmptyString => True end ->
  PyStr.lstrip (PyStr.rstrip s) = PyStr.rstrip s.
Proof.
  destruct s as [|c r]; [done|]. intros Hc. rewrite rstrip_cons.
  destruct (PyStr.rstrip r); rewrite ?Hc; cbn; by rewrite Hc.
Qed.

Lemma strip_idem (s : string) : PyStr.strip (PyStr.strip s) = PyStr.strip s.
Proof.
  unfold PyStr.strip. rewrite (lstrip_rstrip _ (lstrip_head s)). apply rstrip_idem.
Qed.

Lemma cents_of_cents (c : Z) : PyStr.cents (c # 100) = c.
Proof.
  unfold PyStr.cents. apply round_half_even_int. unfold Qeq. cbn. lia.
Qed.

Lemma stored_amount_idem (x : Q) :
  PyNum.max0 (PyNum.round2 (PyNum.max0 (PyNum.round2 x))) = PyNum.max0 (PyNum.round2 x).
Proof.
  assert (Hr : PyNum.round2 (PyNum.round2 x) = PyNum.round2 x).
  { unfold PyNum.round2 at 1 2. by rewrite cents_of_cents. }
  unfold PyNum.max0. destruct (PyNum.lt 0 (PyNum.round2 x)) eqn:E.
  - by rewrite Hr, E.
  - reflexivity.
Qed.

Lemma reload_idem (e : Employee.t) : reload (reload e) = reload e.
Proof.
  unfold reload, Employee.init. cbn [Employee.id Employee.name Employee.weekly_pay
    Employee.year_to_date_pay]. by rewrite strip_idem, !stored_amount_idem.
Qed.

Lemma map_reload_idem (es : list Employee.t) :
  map reload (map reload es) = map reload es.
Proof. rewrite map_map. apply map_ext. intros e. apply reload_idem. Qed.







(** ** Looking an employee up *)

Lemma position_None (emp_id : Z) (es : list Employee.t) :
  position emp_id es = None <-> Forall (fun e => Employee.id e <> emp_id) es.
Proof.
  induction es as [|e es IH]; cbn.
  - split; [constructor|done].
  - destruct (Z.eqb_spec (Employee.id e) emp_id) as [E|E].
    + split; [done|]. intros [H _]%Forall_cons. done.
    + destruct (position emp_id es); cbn.
      * split; [done|]. intros [_ H]%Forall_cons. by apply IH in H.
      * split; [|done]. intros _. constructor; [done|]. by apply IH.
Qed.

Lemma position_first (emp_id : Z) (es : list Employee.t) (i : nat) :
  position emp_id es = Some i ->
  forall j e, (j < i)%nat -> es !! j = Some e -> Employee.id e <> emp_id.
Proof.
  revert i. induction es as [|e0 es IH]; intros i; [done|]. cbn.
  destruct (Z.eqb_spec (Employee.id e0) emp_id) as [E|E].
  - intros [= <-] j e Hj. lia.
  - destruct (position emp_id es) as [k|]; [|done]. intros [= <-] j e Hj Hl.
    destruct j as [|j]; cbn in Hl; [congruence|].
    eapply (IH k eq_refl j); [lia|done].
Qed.

Lemma find_employee_None (st : App) (emp_id : Z) :
  valid_refs st -> find_employee st emp_id = None ->
  Forall (fun e => Employee.id e <> emp_id) (roster st).
Proof.
  intros Hv Hf. apply position_None.
  destruct (position emp_id (roster st)) as [i|] eqn:Hp; [|done].
  assert (is_Some (employees st !! i)) as [emp Hemp].
  { apply lookup_lt_is_Some. rewrite <- roster_length by done.
    destruct (position_lookup _ _ _ Hp) as (e & He & _). by eapply lookup_lt_Some. }
  assert (find_employee st emp_id = Some emp) by (apply find_employee_roster; eauto).
  congruence.
Qed.


(** X3.  [find_employee] returns the first employee of the list with the
    given ID, and [None] exactly when no employee of the list has it. *)
Theorem find_employee_first_match (st : App) (emp_id : Z) :
  reachable st ->
  match find_employee st emp_id with
  | Some emp =>
      exists i e,
        employees st !! i = Some emp /\ deref st emp = Some e
        /\ roster st !! i = Some e /\ Employee.id e = emp_id
        /\ forall j other, (j < i)%nat -> roster st !! j = Some other ->
             Employee.id other <> emp_id
  | None => Forall (fun e => Employee.id e <> emp_id) (roster st)
  end.
Proof.
  intros Hr. pose proof (reachable_valid_refs _ Hr) as Hv.
  destruct (find_employee st emp_id) as [emp|] eqn:Hf.
  - apply find_employee_roster in Hf as (i & Hp & Hi); [|done].
    destruct (position_lookup _ _ _ Hp) as (e & He & Hid).
    exists i, e. repeat split; try done.
    + unfold deref. by rewrite <- (roster_lookup st i emp).
    + by apply position_first.
  - by apply find_employee_None.
Qed.

Lemma find_employee_first_match_witness :
  exists i e,
    employees demo !! i = Some 1%nat /\ deref demo 1 = Some e
    /\ roster demo !! i = Some e /\ Employee.id e = 2%Z
    /\ forall j other, (j < i)%nat -> roster demo !! j = Some other ->
         Employee.id other <> 2%Z.
Proof.
  exact (find_employee_first_match demo 2 (reach_init demo_files "01/05/2025")).
Defined.

(** ** Callbacks that do not succeed *)



(** ** IDs and file names *)

Lemma ids_set_obj_same (st : App) (emp : nat) (e e' : Employee.t) :
  deref st emp = Some e -> Employee.id e' = Employee.id e ->
  map Employee.id (roster (set_obj emp e' st)) = map Employee.id (roster st).
Proof.
  intros Hd Hid. unfold roster, set_obj, deref in *. cbn [heap employees].
  induction (employees st) as [|k refs IH]; [done|].
  change (omap ?f (k :: refs))
    with (match f k with Some y => y :: omap f refs | None => omap f refs end).
  cbn beta. destruct (decide (k = emp)) as [->|Hk].
  - rewrite list_lookup_insert_eq by (by eapply lookup_lt_Some). rewrite Hd.
    cbn. by rewrite IH, Hid.
  - rewrite list_lookup_insert_ne by done. destruct (heap st !! k); cbn; by rewrite IH.
Qed.

Lemma NoDup_insert_fresh {A} (l : list A) (i : nat) (x : A) :
  NoDup l -> x ∉ l -> NoDup (<[i := x]> l).
Proof.
  revert i. induction l as [|y l IH]; intros i Hnd Hx; [done|].
  apply NoDup_cons in Hnd as [Hy Hnd]. apply not_elem_of_cons in Hx as [Hxy Hx].
  destruct i as [|i].
  - change (<[0%nat := x]> (y :: l)) with (x :: l). apply NoDup_cons. done.
  - change (<[S i := x]> (y :: l)) with (y :: <[i := x]> l).
    apply NoDup_cons. split; [|by apply IH].
    intros Hin. apply list_elem_of_lookup in Hin as [j Hj].
    destruct (decide (j = i)) as [->|Hne].
    + destruct (decide (i < length l)%nat).
      * rewrite list_lookup_insert_eq in Hj by done. congruence.
      * rewrite list_insert_ge in Hj by lia. apply Hy. by eapply list_elem_of_lookup_2.
    + rewrite list_lookup_insert_ne in Hj by done. apply Hy. by eapply list_elem_of_lookup_2.
Qed.

Lemma roster_new_object (st : App) (e : Employee.t) files :
  valid_refs st ->
  roster (set_fs files (mkApp (heap st ++ [e]) (employees st ++ [length (heap st)])
                              (fs st) (today st)))
  = (roster st ++ [e])%list.
Proof.
  intros [_ Hv]. unfold roster, set_fs. cbn [heap employees].
  induction Hv as [|k refs [o Ho] Hv IH].
  - rewrite app_nil_l. rewrite (omap_cons_Some _ _ e); [done|].
    by rewrite lookup_app_r, Nat.sub_diag by lia.
  - rewrite <- app_comm_cons.
    rewrite (omap_cons_Some _ _ o) by (by apply lookup_app_l_Some).
    rewrite (omap_cons_Some _ _ o) by done. rewrite <- app_comm_cons. by rewrite IH.
Qed.

Lemma unique_ids_rename (st : App) (emp : nat) (e : Employee.t) (new_id : Z)
  (new_name : string) :
  valid_refs st -> unique_ids st -> deref st emp = Some e ->
  (if Z.eqb new_id (Employee.id e) then None
   else List.find (fun o => Z.eqb (Employee.id o) new_id) (roster st)) = None ->
  NoDup (map Employee.id (roster (set_obj emp (Employee.set_id_name e new_id new_name) st))).
Proof.
  intros Hv Hu Hd Hc.
  destruct (Z.eqb_spec new_id (Employee.id e)) as [E|E].
  { by rewrite (ids_set_obj_same st emp e). }
  destruct (decide (emp ∈ employees st)) as [Hin|Hout].
  - apply list_elem_of_lookup in Hin as [i Hi].
    rewrite (roster_set_obj st i emp) by done. rewrite list_fmap_insert.
    apply NoDup_insert_fresh; [done|]. cbn.
    intros [o [Ho Hin]]%list_elem_of_fmap.
    apply list_elem_of_In in Hin. pose proof (find_none _ _ Hc o Hin) as Hf.
    cbn in Hf. apply Z.eqb_neq in Hf. congruence.
  - by rewrite roster_set_obj_other.
Qed.

Ltac pay_update_shape :=
  repeat (rewrite save_and_load_eq || case_match); cbn [fst]; cbv zeta;
  lazymatch goal with
  | |- pay_update _ ?s ?s => left; reflexivity
  | |- _ =>
      right; eexists _, _, _;
      split; [|split; [|split; [|split; [|reflexivity]]]];
      [eassumption|reflexivity|reflexivity|]
  end.

Lemma save_invoice_shape (emp : nat) (fields : AddFields.t) (st : App) :
  pay_update emp st (fst (save_invoice emp fields st)).
Proof. unfold save_invoice. pay_update_shape. all: by split. Qed.

Lemma save_changes_shape (emp : nat) (row : list string) (fields : EditFields.t) (st : App) :
  pay_update emp st (fst (save_changes emp row fields st)).
Proof. unfold save_changes. pay_update_shape. all: by split. Qed.

Lemma closeout_objects (e : Employee.t) (amount : Q) (d d' : option string) (st : App) :
  same_objects st (archive_invoices e d (record_payment e amount d' st)).
Proof.
  destruct (archive_invoices_objects e d (record_payment e amount d' st)) as [H1 H2].
  split; [by rewrite H1|by rewrite H2].
Qed.

Lemma process_closeout_shape (emp_var : option Z) (attempts : list string) (st : App) :
  exists emp, pay_update emp st (fst (process_closeout emp_var attempts st)).
Proof.
  unfold process_closeout.
  destruct emp_var as [emp_id|]; [|exists 0%nat; by left].
  destruct (find_employee st emp_id) as [emp|]; [|exists 0%nat; by left].
  exists emp. pay_update_shape. apply closeout_objects.
Qed.

Lemma pay_update_ids (emp : nat) (st st' : App) :
  pay_update emp st st' -> map Employee.id (roster st') = map Employee.id (roster st).
Proof.
  intros [->|(e & e' & st2 & Hd & Hid & _ & Hso & ->)]; [done|].
  rewrite roster_load_save, ids_reload.
  rewrite (ids_set_obj_same st2 emp e); [by rewrite (same_objects_roster st)|
    unfold deref in *; by destruct Hso as [-> _] | done].
Qed.

Lemma demo_unique_ids : unique_ids demo.
Proof.
  unfold unique_ids. change (map Employee.id (roster demo)) with [1%Z; 2%Z].
  apply NoDup_cons. split; [|apply NoDup_singleton].
  intros H%list_elem_of_singleton. discriminate H.
Qed.

(** X5.  No callback makes two employees of the list share an ID: when
    the IDs of the list are distinct before a callback, they are distinct
    after it. *)
Theorem ids_stay_unique (a : action) (st : App) :
  reachable st -> unique_ids st -> unique_ids (fst (step a st)).
Proof.
  intros Hr Hu. pose proof (reachable_valid_refs _ Hr) as Hv. unfold unique_ids.
  destruct a; cbn [step]; try done.
  - by rewrite (pay_update_ids _ _ _ (save_invoice_shape _ _ _)).
  - by rewrite (pay_update_ids _ _ _ (save_changes_shape _ _ _ _)).
  - unfold toggle_invoice_status. repeat case_match; cbn [fst]; done.
  - unfold save_employee.
    repeat (rewrite save_and_load_eq || case_match); cbn [fst]; cbv zeta; try done;
      rewrite roster_load_save, ids_reload;
      try rewrite (same_objects_roster _ _ (same_objects_set_fs _ _));
      (apply (unique_ids_rename st); [done..|]);
      match goal with H : (_ =? _)%Z = _ |- _ => by rewrite H end.
  - unfold save_new_employee.
    repeat (rewrite save_and_load_eq || case_match); cbn [fst]; try done.
    rewrite roster_load_save, ids_reload, roster_new_object by done.
    rewrite map_app. cbn. apply NoDup_app. split; [done|]. split; [|apply NoDup_singleton].
    intros x Hx ->%list_elem_of_singleton.
    apply list_elem_of_fmap in Hx as [o [Ho Hin]].
    pose proof (find_employee_None st _ Hv ltac:(eassumption)) as Hall.
    eapply Forall_forall in Hall; [|exact Hin]. congruence.
  - destruct (process_closeout_shape emp_var attempts st) as [emp Hp].
    by rewrite (pay_update_ids _ _ _ Hp).
Qed.

Lemma ids_stay_unique_witness :
  unique_ids (fst (step (SaveNewEmployee "3" "Cy") demo)).
Proof.
  apply ids_stay_unique;
    [exact (reach_init demo_files "01/05/2025") | exact demo_unique_ids].
Defined.

Lemma append_cons (x : ascii) (r b : string) : String x r ++ b = String x (r ++ b).
Proof. reflexivity. Qed.

Lemma append_empty (b : string) : "" ++ b = b.
Proof. reflexivity. Qed.

Lemma lacks_app (c : ascii) (a b : string) : lacks c (a ++ b) = lacks c a && lacks c b.
Proof.
  induction a as [|x r IH]; [done|].
  rewrite append_cons. cbn [lacks]. by rewrite IH, andb_assoc.
Qed.

Lemma append_assoc (a b c : string) : (a ++ b) ++ c = a ++ b ++ c.
Proof. induction a as [|x r IH]; [done|]. rewrite !append_cons. by rewrite IH. Qed.

(** Two texts cut at the first [c]. *)
Lemma split_first (c : ascii) (s s' t t' : string) :
  lacks c s = true -> lacks c s' = true ->
  s ++ String c t = s' ++ String c t' -> s = s' /\ t = t'.
Proof.
  revert s'. induction s as [|x r IH]; intros [|x' r'];
    rewrite ?append_cons, ?append_empty; cbn [lacks].
  - intros _ _ [= ->]. done.
  - intros _ [Hx _]%andb_prop [= <- _]. by rewrite Ascii.eqb_refl in Hx.
  - intros [Hx _]%andb_prop _ [= -> _]. by rewrite Ascii.eqb_refl in Hx.
  - intros [_ Hr]%andb_prop [_ Hr']%andb_prop [= -> H].
    destruct (IH r' Hr Hr' H) as [-> ->]. done.
Qed.

(** Two texts cut at the last [c]. *)
Lemma split_last (c : ascii) (a a' t t' : string) :
  lacks c t = true -> lacks c t' = true ->
  a ++ String c t = a' ++ String c t' -> a = a' /\ t = t'.
Proof.
  intros Ht Ht'. revert a'. induction a as [|x r IH]; intros [|x' r'];
    rewrite ?append_cons, ?append_empty.
  - intros [= ->]. done.
  - intros [= <- ->]. rewrite lacks_app in Ht. cbn [lacks] in Ht.
    rewrite Ascii.eqb_refl in Ht. by destruct (lacks c r').
  - intros [= -> <-]. rewrite lacks_app in Ht'. cbn [lacks] in Ht'.
    rewrite Ascii.eqb_refl in Ht'. by destruct (lacks c r).
  - intros [= -> H]. destruct (IH r' H) as [-> ->]. done.
Qed.

Lemma lacks_uint (c : ascii) (d : Decimal.uint) :
  lacks c "0123456789" = true -> lacks c (NilEmpty.string_of_uint d) = true.
Proof.
  intros H. simpl in H.
  repeat (apply andb_prop in H as [? H]).
  induction d; simpl; rewrite ?IHd; auto using andb_true_intro.
Qed.

Lemma lacks_str_int (c : ascii) (z : Z) :
  lacks c "-0123456789" = true -> lacks c (PyStr.str_int z) = true.
Proof.
  intros H. change "-0123456789" with (String "-" "0123456789") in H.
  cbn [lacks] in H. apply andb_prop in H as [Hm Hd].
  unfold PyStr.str_int.
  destruct (Z.to_int z) as [d|d]; cbn [NilZero.string_of_int lacks].
  - destruct d; try (by apply (lacks_uint c (_ _))). simpl in *.
    repeat (apply andb_prop in Hd as [? Hd]). auto using andb_true_intro.
  - rewrite Hm. cbn [andb].
    destruct d; try (by apply (lacks_uint c (_ _))). simpl in *.
    repeat (apply andb_prop in Hd as [? Hd]). auto using andb_true_intro.
Qed.

Lemma str_int_inj (z z' : Z) : PyStr.str_int z = PyStr.str_int z' -> z = z'.
Proof.
  intros H. apply (f_equal PyStr.int) in H. rewrite !int_str_int in H. congruence.
Qed.

Lemma stem_inj (e e' : Employee.t) :
  Employee.safe_name e ++ "_" ++ PyStr.str_int (Employee.id e)
  = Employee.safe_name e' ++ "_" ++ PyStr.str_int (Employee.id e') ->
  Employee.id e = Employee.id e' /\ Employee.safe_name e = Employee.safe_name e'.
Proof.
  intros H. change ("_" ++ ?s) with (String "_" s) in H.
  apply split_last in H as [Hs Hi]; try (by apply lacks_str_int).
  split; [by apply str_int_inj|done].
Qed.

Lemma safe_name_reload (e : Employee.t) :
  Employee.safe_name (reload e) = Employee.safe_name e.
Proof.
  unfold Employee.safe_name, reload. cbn [Employee.name Employee.init].
  by rewrite strip_idem.
Qed.

Lemma filenames_reload (e : Employee.t) :
  Employee.get_invoice_filename (reload e) = Employee.get_invoice_filename e
  /\ Employee.get_payment_history_filename (reload e)
     = Employee.get_payment_history_filename e
  /\ forall d, Employee.get_archived_invoice_filename (reload e) d
               = Employee.get_archived_invoice_filename e d.
Proof.
  unfold Employee.get_invoice_filename, Employee.get_payment_history_filename,
    Employee.get_archived_invoice_filename.
  by rewrite safe_name_reload.
Qed.

(** X6.  The invoice file name and the payment-history file name of an
    employee determine the ID and the name part: two employees with
    different IDs never have the same file, so in a list with distinct IDs
    no two employees share an invoice file or a payment history. *)
Theorem file_name_tells_id :
  (forall e e',
     Employee.get_invoice_filename e = Employee.get_invoice_filename e'
     \/ Employee.get_payment_history_filename e = Employee.get_payment_history_filename e' ->
     Employee.id e = Employee.id e' /\ Employee.safe_name e = Employee.safe_name e')
  /\ (forall st i j e e',
        unique_ids st -> i <> j ->
        roster st !! i = Some e -> roster st !! j = Some e' ->
        Employee.get_invoice_filename e <> Employee.get_invoice_filename e'
        /\ Employee.get_payment_history_filename e
           <> Employee.get_payment_history_filename e').
Proof.
  assert (forall e e',
     Employee.get_invoice_filename e = Employee.get_invoice_filename e'
     \/ Employee.get_payment_history_filename e = Employee.get_payment_history_filename e' ->
     Employee.id e = Employee.id e' /\ Employee.safe_name e = Employee.safe_name e') as Hinj.
  { intros e e' [H|H].
    - unfold Employee.get_invoice_filename in H.
      apply (inj (String.append "invoices/")) in H.
      change ("_" ++ ?s) with (String "_" s) in H.
      apply split_last in H as [Hs Hi];
        try (rewrite lacks_app; by rewrite lacks_str_int).
      change ".csv" with (String "." "csv") in Hi.
      apply split_first in Hi as [Hi _]; try (by apply lacks_str_int).
      split; [by apply str_int_inj|done].
    - unfold Employee.get_payment_history_filename in H.
      apply (inj (String.append "payment_history/")) in H.
      assert (forall a b, a ++ "_" ++ b ++ "_payments.csv"
                          = (a ++ "_" ++ b) ++ String "_" "payments.csv") as Hassoc.
      { intros a b. by rewrite !append_assoc. }
      rewrite !Hassoc in H. apply split_last in H as [H _]; [|done..].
      by apply stem_inj. }
  split; [exact Hinj|].
  intros st i j e e' Hu Hij Hi Hj.
  assert (Employee.id e <> Employee.id e') as Hne.
  { intros Heq. apply Hij. eapply NoDup_lookup; [exact Hu| |].
    - by rewrite list_lookup_fmap, Hi.
    - rewrite list_lookup_fmap, Hj. cbn. by rewrite Heq. }
  split; intros Heq; apply Hne; apply Hinj; [by left|by right].
Qed.

(** ** Commission *)

(** X7.  With materials not below zero, an invoice paid by card never
    earns more commission than the same invoice paid otherwise: the
    difference is half the materials below 35, and the materials from 35
    on. *)
Theorem card_commission_not_above (total tip materials fees : Q) :
  (0 <= materials)%Q ->
  let card := Invoice.calculate_commission_static true total tip materials fees in
  let no_card := Invoice.calculate_commission_static false total tip materials fees in
  (card <= no_card)%Q
  /\ ((materials < 35)%Q -> (no_card - card == materials / 2)%Q)
  /\ ((35 <= materials)%Q -> (no_card - card == materials)%Q).
Proof.
  intros Hm card no_card. subst card no_card.
  unfold Invoice.calculate_commission_static.
  destruct (lt_35_spec materials) as [H1 H2].
  destruct (Qlt_le_dec materials 35) as [Hlt|Hge].
  - rewrite (H1 Hlt). unfold Qdiv. change (/ 2)%Q with (1 # 2)%Q.
    split; [|split]; intros; lra.
  - rewrite (H2 Hge). unfold Qdiv. change (/ 2)%Q with (1 # 2)%Q.
    split; [|split]; intros; lra.
Qed.

Lemma card_commission_not_above_witness :
  (Invoice.calculate_commission_static true 200 20 50 10
   <= Invoice.calculate_commission_static false 200 20 50 10)%Q.
Proof.
  apply (card_commission_not_above 200 20 50 10). unfold Qle. cbn. lia.
Defined.

Lemma float_or_0_float (text : string) (q : Q) :
  PyStr.float text = Some q -> float_or_0 text = Some q.
Proof.
  intros H. unfold float_or_0. destruct (String.eqb_spec text "") as [->|]; [|done].
  discriminate H.
Qed.

(** X8.  When "Save Invoice" or "Save Changes" succeeds, the commission
    in the success box is the one the preview label of the dialog computes
    for the same entries, with the same mode text. *)
Theorem preview_is_what_is_saved (st : App) (emp : nat) :
  (forall fields message,
     snd (save_invoice emp fields st) = [showinfo "Success" message] ->
     message = "Invoice added!" ++ nl ++ update_commission fields)
  /\ (forall invoice_row0 fields message,
        snd (save_changes emp invoice_row0 fields st) = [showinfo "Success" message] ->
        message = "Invoice updated!" ++ nl ++ "New " ++ update_commission_edit fields).
Proof.
  split.
  - intros fields message. unfold save_invoice, add_amounts, update_commission.
    destruct (deref st emp) as [e|]; [|done].
    destruct (_ || _); [done|].
    destruct (AddFields.manual_override fields).
    + destruct (PyStr.float (AddFields.manual_commission fields)) as [c|] eqn:Hc; [|done].
      rewrite (float_or_0_float _ _ Hc), save_and_load_eq. cbn [snd]. by intros [= <-].
    + destruct (PyStr.float (AddFields.total fields)) as [t|] eqn:Ht; [|done].
      destruct (PyStr.float (AddFields.tip fields)) as [tp|] eqn:Htp; [|done].
      destruct (PyStr.float (AddFields.materials fields)) as [m|] eqn:Hm; [|done].
      destruct (PyStr.float (AddFields.fees fields)) as [f|] eqn:Hf; [|done].
      rewrite (float_or_0_float _ _ Ht), (float_or_0_float _ _ Htp),
        (float_or_0_float _ _ Hm), (float_or_0_float _ _ Hf), save_and_load_eq.
      cbn [snd]. by intros [= <-].
  - intros invoice_row0 fields message. unfold save_changes, update_commission_edit.
    destruct (deref st emp) as [e|]; [|done].
    destruct (old_values invoice_row0) as [x|[old_number C_old]]; [done|].
    destruct (PyStr.float (EditFields.total fields)) as [t|] eqn:Ht; [|done].
    destruct (PyStr.float (EditFields.tip fields)) as [tp|] eqn:Htp;
      [|by repeat case_match].
    destruct (PyStr.float (EditFields.materials fields)) as [m|] eqn:Hm;
      [|by repeat case_match].
    destruct (PyStr.float (EditFields.fees fields)) as [f|] eqn:Hf;
      [|by repeat case_match].
    rewrite (float_or_0_float _ _ Ht), (float_or_0_float _ _ Htp),
      (float_or_0_float _ _ Hm), (float_or_0_float _ _ Hf).
    repeat (rewrite save_and_load_eq || case_match); cbn [snd]; try done.
    by intros [= <-].
Qed.

(** ** Invoices *)






Lemma mark_rows_map (invoice_number new_status : string) (rows rows' : list (list string)) :
  mark_rows invoice_number new_status rows = inr rows' ->
  rows' = map (fun row => if has_number invoice_number row
                          then <[3%nat := new_status]> row else row) rows
  /\ Forall (fun row => has_number invoice_number row = true -> (3 < length row)%nat) rows.
Proof.
  revert rows'. induction rows as [|row rest IH]; intros rows'; cbn [mark_rows].
  { intros [= <-]. by split. }
  destruct row as [|n fields]; [done|].
  cbn [has_number map].
  destruct (String.eqb n invoice_number) eqn:En.
  - destruct (length (n :: fields) <=? 3)%nat eqn:El; [done|].
    destruct (mark_rows invoice_number new_status rest) as [x|rest'] eqn:Er; [done|].
    intros [= <-]. destruct (IH rest' eq_refl) as [-> Hall]. split; [done|].
    constructor; [|done]. intros _. apply Nat.leb_gt in El. exact El.
  - destruct (mark_rows invoice_number new_status rest) as [x|rest'] eqn:Er; [done|].
    intros [= <-]. destruct (IH rest' eq_refl) as [-> Hall]. split; [done|].
    constructor; [|done]. cbn [has_number]. by rewrite En.
Qed.




Lemma load_new_refs (st : App) :
  (forall l, l ∈ employees (fst (load_employees st)) -> (length (heap st) <= l)%nat).
Proof.
  unfold load_employees.
  destruct (fs st !! "employees.csv") as [[|header rows]|]; cbn [fst employees];
    intros l Hl; try by apply elem_of_nil in Hl.
  apply elem_of_seq in Hl. lia.
Qed.

Lemma reloaded_not_listed (emp : nat) (e e' : Employee.t) (st st2 : App) :
  deref st emp = Some e -> same_objects st st2 ->
  let st' := fst (load_employees (save_employees (set_obj emp e' st2))) in
  (emp ∉ employees st')
  /\ roster st' = map reload (roster (set_obj emp e' st2)).
Proof.
  intros Hd [Hh He] st'. split; [|apply roster_load_save].
  intros Hin. apply load_new_refs in Hin.
  cbn [save_employees set_fs set_obj heap] in Hin.
  rewrite length_insert, Hh in Hin.
  apply lookup_lt_Some in Hd. lia.
Qed.

Lemma invoice_saved (st : App) (emp : nat) (fields : AddFields.t) (message : string) :
  snd (save_invoice emp fields st) = [showinfo "Success" message] ->
  exists e e' files,
    deref st emp = Some e
    /\ fst (save_invoice emp fields st)
       = fst (load_employees (save_employees (set_obj emp e' (set_fs files st)))).
Proof.
  unfold save_invoice. destruct (deref st emp) as [e|]; [|done].
  repeat case_match; try done;
    rewrite save_and_load_eq; cbn [fst snd]; intros _; by eexists _, _, _.
Qed.

Lemma add_leaves_stale_view (s : Session) (emp_id : Z) (emp : nat) (add : AddFields.t)
  (message : string) :
  find_employee (app s) emp_id = Some emp ->
  snd (save_invoice emp add (app s)) = [showinfo "Success" message] ->
  stale_view emp (add_invoice emp_id add s).
Proof.
  intros Hf Hs. unfold add_invoice. rewrite Hf.
  destruct (invoice_saved _ _ _ _ Hs) as (e & e' & files & Hd & Hst).
  destruct (save_invoice emp add (app s)) as [st' replies]. cbn [fst snd] in *.
  subst replies st'. cbn [succeeded app viewed].
  destruct (reloaded_not_listed emp e e' (app s) (set_fs files (app s)) Hd
              (same_objects_set_fs _ _)) as [Hn Hr].
  split; [done|]. split; [done|]. cbn [app]. by rewrite Hr, map_reload_idem.
Qed.

Lemma edit_keeps_stale_view (emp n : nat) (fields : EditFields.t) (s : Session) :
  stale_view emp s ->
  stale_view emp (edit_invoice n fields s)
  /\ roster (app (edit_invoice n fields s)) = roster (app s).
Proof.
  intros (Hview & Hn & Hre). unfold edit_invoice. rewrite Hview.
  destruct (deref (app s) emp) as [e|] eqn:Hd; [|done].
  destruct (invoice_data (app s) e) as [data|]; [|done].
  destruct (clicked_row data n) as [inv_row|]; [|done].
  pose proof (save_changes_shape emp inv_row fields (app s)) as Hshape.
  destruct (save_changes emp inv_row fields (app s)) as [st' replies]. cbn [fst] in Hshape.
  assert (stale_view emp (mkSession st' (Some emp)) /\ roster st' = roster (app s)) as [H1 H2].
  { destruct Hshape as [->|(e0 & e' & st2 & Hd0 & _ & _ & Hso & ->)]; [done|].
    destruct (reloaded_not_listed emp e0 e' (app s) st2 Hd0 Hso) as [Hn' Hr].
    assert (roster (set_obj emp e' st2) = roster (app s)) as Hsame.
    { rewrite roster_set_obj_other; [by apply same_objects_roster|].
      by destruct Hso as [_ ->]. }
    rewrite Hsame, Hre in Hr.
    split; [|done]. split; [done|]. split; [done|]. cbn [app]. by rewrite Hr. }
  by destruct (succeeded replies).
Qed.

(** X12.  After a successful "Save Invoice" the invoice view is drawn for
    the reference the dialog was opened with, which is no longer in the
    list.  Whatever edits are then made from that view, and however many,
    the pay of every employee of the list stays as it is. *)
Theorem edits_after_add_change_no_pay (s : Session) (emp_id : Z) (emp : nat)
  (add : AddFields.t) (message : string) (edits : list (nat * EditFields.t)) :
  find_employee (app s) emp_id = Some emp ->
  snd (save_invoice emp add (app s)) = [showinfo "Success" message] ->
  let s1 := add_invoice emp_id add s in
  let s2 := fold_left (fun s' edit => edit_invoice (fst edit) (snd edit) s') edits s1 in
  viewed s1 = Some emp
  /\ (emp ∉ employees (app s1))
  /\ roster (app s2) = roster (app s1).
Proof.
  intros Hf Hs s1 s2.
  pose proof (add_leaves_stale_view s emp_id emp add message Hf Hs) as Hstale.
  fold s1 in Hstale. split; [apply Hstale|]. split; [apply Hstale|].
  subst s2. revert Hstale. generalize s1. clear.
  induction edits as [|[n fields] edits IH]; intros s Hstale; [done|].
  cbn [fold_left fst snd].
  destruct (edit_keeps_stale_view emp n fields s Hstale) as [H1 H2].
  by rewrite (IH _ H1).
Qed.

Lemma edits_after_add_change_no_pay_witness :
  let add := AddFields.mk "B1" "Cust" "01/03/2025" "Paid" false "" false "40" "0" "0" "0" in
  let edit := EditFields.mk "A1" "Cust" "01/02/2025" "Paid" false "200" "0" "0" "0" in
  let s1 := add_invoice 1 add (mkSession demo None) in
  let s2 := edit_invoice 0 edit (edit_invoice 0 edit s1) in
  viewed s1 = Some 0%nat /\ roster (app s2) = roster (app s1).
Proof.
  intros add edit s1 s2.
  destruct (edits_after_add_change_no_pay (mkSession demo None) 1 0 add
              ("Invoice added!" ++ nl ++ "Commission: $20.00 (Calculated)")
              [(0%nat, edit); (0%nat, edit)] eq_refl eq_refl) as (Hv & _ & Hr).
  split; [exact Hv|exact Hr].
Defined.

(** X13.  A successful status change sets the status field of every row
    with the invoice number, each of which has one, and nothing else: the
    other fields, the other rows, their order, the other files, the
    objects and the list are the same, so no pay changes. *)
Theorem toggle_marks_rows (st : App) (emp : nat) (e : Employee.t)
  (invoice_row0 : list string) (invoice_number new_status message : string) :
  deref st emp = Some e ->
  invoice_row0 !! 0%nat = Some invoice_number ->
  snd (toggle_invoice_status emp invoice_row0 new_status st)
  = [showinfo "Success" message] ->
  let st' := fst (toggle_invoice_status emp invoice_row0 new_status st) in
  let filename := Employee.get_invoice_filename e in
  exists header rows,
    fs st !! filename = Some (header :: rows)
    /\ fs st' !! filename
       = Some (header :: map (fun row => if has_number invoice_number row
                                         then <[3%nat := new_status]> row else row) rows)
    /\ Forall (fun row => has_number invoice_number row = true -> (3 < length row)%nat) rows
    /\ (forall path, path <> filename -> fs st' !! path = fs st !! path)
    /\ heap st' = heap st /\ employees st' = employees st.
Proof.
  intros Hd H0. unfold toggle_invoice_status. rewrite Hd, H0.
  destruct (invoice_row0 !! 3%nat) as [old_status|]; [|done].
  destruct (String.eqb old_status new_status); [done|].
  destruct (fs st !! Employee.get_invoice_filename e) as [[|header rows]|] eqn:Hf; try done.
  destruct (mark_rows invoice_number new_status rows) as [x|rows'] eqn:Hm; [done|].
  cbn [snd fst set_fs fs heap employees]. intros _.
  destruct (mark_rows_map _ _ _ _ Hm) as [-> Hall].
  exists header, rows. split; [done|]. split; [by rewrite lookup_insert_eq|].
  split; [done|]. split; [|done].
  intros path Hp. by rewrite lookup_insert_ne.
Qed.

Lemma toggle_marks_rows_witness :
  let st' := fst (toggle_invoice_status 0 invoice_A1 "Unpaid" demo) in
  exists header rows,
    fs demo !! "invoices/ann_lee_1.csv" = Some (header :: rows)
    /\ fs st' !! "invoices/ann_lee_1.csv"
       = Some (header :: map (fun row => if has_number "A1" row
                                         then <[3%nat := "Unpaid"]> row else row) rows)
    /\ Forall (fun row => has_number "A1" row = true -> (3 < length row)%nat) rows
    /\ (forall path, path <> "invoices/ann_lee_1.csv" -> fs st' !! path = fs demo !! path)
    /\ heap st' = heap demo /\ employees st' = employees demo.
Proof.
  exact (toggle_marks_rows demo 0 ann invoice_A1 "A1" "Unpaid"
           "Invoice #A1 status changed to Unpaid." eq_refl eq_refl eq_refl).
Defined.

(** ** Employees *)



Lemma rename_lookup (old new : string) (files : gmap string (list (list string))) :
  old <> new ->
  (forall content, files !! old = Some content ->
     rename old new files !! new = Some content /\ rename old new files !! old = None)
  /\ (files !! old = None -> rename old new files = files)
  /\ (forall path, path <> old -> path <> new -> rename old new files !! path = files !! path).
Proof.
  intros Hne. unfold rename. split; [|split].
  - intros content ->. split; [apply lookup_insert_eq|].
    rewrite lookup_insert_ne by done. apply lookup_delete_eq.
  - by intros ->.
  - intros path H1 H2. destruct (files !! old); [|done].
    rewrite lookup_insert_ne by done. by rewrite lookup_delete_ne.
Qed.

(** X15.  A successful "Edit Employee" gives the employee the new ID and
    the stripped new name and keeps the pay, as the table stores it.  The
    invoice file moves to the new file name when that differs; no other
    file moves.  The payment history stays under the old name: the last
    payment date shown afterwards is read from whatever was under the new
    name before. *)
Theorem rename_moves_invoices_only (st : App) (i emp : nat) (e : Employee.t)
  (id_entry name_entry message : string) :
  reachable st ->
  employees st !! i = Some emp -> deref st emp = Some e ->
  snd (save_employee emp id_entry name_entry st) = [showinfo "Success" message] ->
  let st' := fst (save_employee emp id_entry name_entry st) in
  exists (new_id : Z) (e' : Employee.t),
    PyStr.int (PyStr.strip id_entry) = Some new_id
    /\ roster st' !! i = Some e'
    /\ Employee.id e' = new_id
    /\ Employee.name e' = PyStr.strip name_entry
    /\ (Employee.weekly_pay e' == PyNum.round2 (Employee.weekly_pay e))%Q
    /\ (Employee.year_to_date_pay e' == PyNum.round2 (Employee.year_to_date_pay e))%Q
    /\ (forall j, j <> i -> roster st' !! j = reload <$> roster st !! j)
    /\ let old := Employee.get_invoice_filename e in
       let new := Employee.get_invoice_filename e' in
       (old <> new -> forall content, fs st !! old = Some content ->
          fs st' !! new = Some content /\ fs st' !! old = None)
       /\ (old = new \/ fs st !! old = None -> fs st' !! new = fs st !! new)
       /\ (forall path, path <> old -> path <> new -> path <> "employees.csv" ->
             fs st' !! path = fs st !! path)
       /\ get_last_payment_date st' e' = get_last_payment_date st e'.
Proof.
  intros Hr Hi Hd. pose proof (reachable_valid_refs _ Hr) as Hv.
  unfold save_employee. rewrite Hd.
  destruct (PyStr.int (PyStr.strip id_entry)) as [new_id|]; [|done].
  destruct (String.eqb (PyStr.strip name_entry) ""); [done|].
  destruct (if (new_id =? Employee.id e)%Z then None else _) as [other|]; [done|].
  rewrite save_and_load_eq. cbn [snd fst]. intros _.
  set (e2 := Employee.set_id_name e new_id (PyStr.strip name_entry)).
  set (old := Employee.get_invoice_filename e).
  set (new := Employee.get_invoice_filename e2).
  set (st2 := if negb (String.eqb old new) then _ else _).
  assert (Hso : same_objects (set_obj emp e2 st) st2).
  { subst st2. destruct (negb _); by split. }
  assert (Hro : roster (fst (load_employees (save_employees st2)))
                = map reload (<[i := e2]> (roster st))).
  { rewrite roster_load_save, (same_objects_roster _ _ Hso). f_equal.
    by apply roster_set_obj. }
  assert (Hlt : (i < length (roster st))%nat).
  { rewrite roster_length by done. by eapply lookup_lt_Some. }
  assert (He : roster st !! i = Some e).
  { rewrite (roster_lookup st i emp) by done. exact Hd. }
  destruct (Forall_lookup_1 _ _ _ _ (reachable_not_negative _ Hr) He) as [Hw Hy].
  assert (Hfs : fs st2 = if negb (String.eqb old new) then rename old new (fs st) else fs st).
  { subst st2. by destruct (negb _). }
  assert (Hnew : Employee.get_invoice_filename (reload e2) = new)
    by apply filenames_reload.
  exists new_id, (reload e2).
  split; [done|]. split; [by rewrite Hro, list_lookup_fmap, list_lookup_insert_eq|].
  split; [done|]. split; [cbn; apply strip_idem|].
  split; [by apply max0_round2|]. split; [by apply max0_round2|].
  split; [intros j Hj; by rewrite Hro, list_lookup_fmap, list_lookup_insert_ne|].
  cbv zeta. rewrite Hnew. fold old. rewrite fs_load_save, Hfs.
  split; [|split; [|split]].
  - intros Hne content Hc. rewrite !lookup_insert_ne by (subst old new; path_ne).
    rewrite (proj2 (String.eqb_neq _ _) Hne). cbn [negb].
    by apply rename_lookup.
  - intros Hc. rewrite lookup_insert_ne by (subst new; path_ne).
    destruct (String.eqb_spec old new) as [E|E]; [done|]. cbn [negb].
    destruct Hc as [Hc|Hc]; [done|]. by rewrite (proj1 (proj2 (rename_lookup _ _ _ E)) Hc).
  - intros path H1 H2 H3. rewrite lookup_insert_ne by done.
    destruct (String.eqb_spec old new) as [E|E]; [done|]. cbn [negb].
    by apply rename_lookup.
  - unfold get_last_payment_date, open_history.
    rewrite fs_load_save, Hfs, lookup_insert_ne by path_ne.
    destruct (String.eqb_spec old new) as [E|E]; [done|]. cbn [negb].
    rewrite (proj2 (proj2 (rename_lookup old new (fs st) E))); [done| |];
      subst old new; path_ne.
Qed.

(** Ann Lee becomes Ann Ray with ID 7: the invoices move to the new file
    name, and the last payment date is read under the new name. *)
Lemma rename_moves_invoices_only_witness :
  let st' := fst (save_employee 0 "7" "Ann Ray" demo) in
  exists e',
    roster st' !! 0%nat = Some e'
    /\ Employee.id e' = 7%Z /\ Employee.name e' = "Ann Ray"
    /\ fs st' !! "invoices/ann_ray_7.csv" = Some [invoice_header; invoice_A1]
    /\ fs st' !! "invoices/ann_lee_1.csv" = None
    /\ get_last_payment_date st' e' = get_last_payment_date demo e'.
Proof.
  intros st'.
  destruct (rename_moves_invoices_only demo 0 0 ann "7" "Ann Ray"
              "Employee updated to ID 7, Name: Ann Ray"
              (reach_init demo_files "01/05/2025") eq_refl eq_refl eq_refl)
    as (new_id & e' & Hid & Hro & Hi & Hn & _ & _ & _ & Hfiles).
  injection Hid as <-. cbv zeta in Hfiles.
  destruct Hfiles as (Hmove & _ & _ & Hlast).
  assert (Employee.get_invoice_filename e' = "invoices/ann_ray_7.csv") as Hname.
  { unfold Employee.get_invoice_filename, Employee.safe_name. by rewrite Hi, Hn. }
  rewrite Hname in Hmove.
  destruct (Hmove ltac:(discriminate) [invoice_header; invoice_A1] eq_refl) as [H1 H2].
  exists e'. repeat (split; [assumption|]). exact Hlast.
Defined.

(** ** Close-out and the reports *)

(** X16.  The payment-date dialog shows one error box for each entry that
    is not a date, and closes with the first entry that is one, stripped;
    when no entry is a date the close-out is cancelled. *)
Theorem date_dialog_first_valid (attempts : list string) :
  let errors := fst (date_dialog attempts) in
  let k := length errors in
  errors = replicate k (showerror "Invalid Date" "Please enter date in MM/DD/YYYY format.")
  /\ (forall j text, (j < k)%nat -> attempts !! j = Some text ->
        strptime_mdY (PyStr.strip text) = false)
  /\ match snd (date_dialog attempts) with
     | Some date =>
         exists text, attempts !! k = Some text /\ date = PyStr.strip text
                      /\ strptime_mdY date = true
     | None => k = length attempts
     end.
Proof.
  induction attempts as [|text rest IH]; cbn [date_dialog].
  { cbn. split; [done|]. split; [|done]. intros j text Hj. lia. }
  destruct (strptime_mdY (PyStr.strip text)) eqn:Hv.
  { cbn. split; [done|]. split; [intros j t Hj; lia|]. by exists text. }
  destruct (date_dialog rest) as [errors result]. cbn [fst snd length] in *.
  destruct IH as (He & Hbefore & Hres).
  split; [cbn; by rewrite <- He|]. split.
  - intros [|j] t Hj Hl; cbn in Hl.
    + by injection Hl as <-.
    + apply (Hbefore j); [lia|done].
  - destruct result as [date|]; [done|]. by rewrite Hres.
Qed.

Section AfterCloseout.

Variables (st : App) (emp_id : Z) (i emp : nat) (e : Employee.t).
Variables (attempts : list string) (errors : list reply) (date : string).
Hypothesis reached : reachable st.
Hypothesis found : find_employee st emp_id = Some emp.
Hypothesis listed : employees st !! i = Some emp.
Hypothesis object : deref st emp = Some e.
Hypothesis owed : (0 < Employee.weekly_pay e)%Q.
Hypothesis confirmed : date_dialog attempts = (errors, Some date).

Let st' : App := fst (process_closeout (Some emp_id) attempts st).
Let paid : Employee.t :=
  Employee.edit_pay (Employee.add_weekly_pay e (Employee.weekly_pay e)) 0.

Lemma closeout_roster :
  roster st' = map reload (<[i := paid]> (roster st)).
Proof.
  subst st'. rewrite (closeout_confirmed _ _ _ _ _ _ _ found object owed confirmed).
  apply commit_roster; [by apply reachable_valid_refs|apply closeout_objects|done].
Qed.


End AfterCloseout.

(** X17.  A confirmed close-out touches one employee only: every other
    employee keeps ID, name and pay as the table stores them, and no file
    changes apart from [employees.csv] and the employee's own invoice
    file, archive for the date and payment history. *)
Theorem closeout_touches_one_employee (st : App) (emp_id : Z) (i emp : nat)
  (e : Employee.t) (attempts : list string) (errors : list reply) (date : string) :
  reachable st ->
  find_employee st emp_id = Some emp -> employees st !! i = Some emp ->
  deref st emp = Some e ->
  (0 < Employee.weekly_pay e)%Q ->
  date_dialog attempts = (errors, Some date) ->
  let st' := fst (process_closeout (Some emp_id) attempts st) in
  (forall j other, j <> i -> roster st !! j = Some other ->
     exists other',
       roster st' !! j = Some other'
       /\ Employee.id other' = Employee.id other
       /\ Employee.name other' = PyStr.strip (Employee.name other)
       /\ (Employee.weekly_pay other' == PyNum.round2 (Employee.weekly_pay other))%Q
       /\ (Employee.year_to_date_pay other'
           == PyNum.round2 (Employee.year_to_date_pay other))%Q)
  /\ (forall path,
        path <> "employees.csv" ->
        path <> Employee.get_invoice_filename e ->
        path <> Employee.get_archived_invoice_filename e date ->
        path <> Employee.get_payment_history_filename e ->
        fs st' !! path = fs st !! path).
Proof.
  intros Hr Hf Hi Hd Hw Hdlg st'. split.
  - intros j other Hj Ho. exists (reload other).
    subst st'. rewrite (closeout_roster st emp_id i emp e attempts errors date) by done.
    rewrite list_lookup_fmap, list_lookup_insert_ne, Ho by done.
    destruct (Forall_lookup_1 _ _ _ _ (reachable_not_negative _ Hr) Ho) as [H1 H2].
    split; [done|]. split; [done|]. split; [done|]. split; by apply max0_round2.
  - intros path H1 H2 H3 H4. subst st'.
    rewrite (closeout_confirmed _ _ _ _ _ _ _ Hf Hd Hw Hdlg), fs_load_save.
    rewrite lookup_insert_ne by done. cbn [set_obj fs].
    unfold archive_invoices.
    destruct (fs (record_payment _ _ _ st) !! Employee.get_invoice_filename e);
      cbn [set_fs fs record_payment].
    + rewrite archive_name_idem. rewrite !lookup_insert_ne by done.
      by apply append_row_lookup_ne.
    + by apply append_row_lookup_ne.
Qed.

Lemma closeout_touches_one_employee_witness :
  let st' := fst (process_closeout (Some 1%Z) ["01/05/2025"] demo) in
  (exists bob, roster st' !! 1%nat = Some bob
               /\ Employee.id bob = 2%Z
               /\ (Employee.year_to_date_pay bob == PyNum.round2 (12050 # 100))%Q)
  /\ fs st' !! "invoices/bob_2.csv" = fs demo !! "invoices/bob_2.csv".
Proof.
  intros st'.
  destruct (closeout_touches_one_employee demo 1 0 0 ann ["01/05/2025"] [] "01/05/2025"
              (reach_init demo_files "01/05/2025") eq_refl eq_refl eq_refl eq_refl eq_refl)
    as [Hothers Hfiles].
  split.
  - destruct (Hothers 1%nat (Employee.mk 2 "Bob" 0 (12050 # 100)) ltac:(discriminate)
                eq_refl) as (bob & Hb & Hid & _ & _ & Hy).
    exists bob. split; [exact Hb|]. split; [exact Hid|exact Hy].
  - apply Hfiles; discriminate.
Defined.



Lemma round_half_even_proper (q q' : Q) :
  (q == q')%Q -> PyStr.round_half_even q = PyStr.round_half_even q'.
Proof.
  intros H. unfold PyStr.round_half_even.
  rewrite (Qfloor_comp _ _ H).
  assert ((q - inject_Z (Qfloor q') ?= 1 # 2)%Q = (q' - inject_Z (Qfloor q') ?= 1 # 2)%Q)
    as ->; [|done].
  apply Qcompare_comp; [by rewrite H|done].
Qed.

Lemma fmt2_proper (q q' : Q) : (q == q')%Q -> PyStr.fmt2 q = PyStr.fmt2 q'.
Proof.
  intros H. unfold PyStr.fmt2, PyStr.cents.
  rewrite (round_half_even_proper (q * 100) (q' * 100)) by (by rewrite H).
  assert (Qle_bool 0 q = Qle_bool 0 q') as ->; [|done].
  destruct (Qle_bool 0 q') eqn:E.
  - apply Qle_bool_iff. apply Qle_bool_iff in E. by rewrite H.
  - destruct (Qle_bool 0 q) eqn:E'; [|done].
    apply Qle_bool_iff in E'. rewrite H in E'. apply Qle_bool_iff in E'. congruence.
Qed.

Lemma total_from (amount : Employee.t -> Q) (es : list Employee.t) (a : Q) :
  (fold_left (fun total e => total + amount e) es a == a + total_of amount es)%Q.
Proof.
  unfold total_of. revert a. induction es as [|e es IH]; intros a; cbn [fold_left].
  - lra.
  - rewrite (IH (a + amount e)%Q), (IH (0 + amount e)%Q). lra.
Qed.

Lemma total_of_cons (amount : Employee.t -> Q) (e : Employee.t) (es : list Employee.t) :
  (total_of amount (e :: es) == amount e + total_of amount es)%Q.
Proof. unfold total_of at 1. cbn [fold_left]. rewrite total_from. lra. Qed.

(** The total after one employee's entry is replaced, the others being
    stored as they are. *)
Lemma total_of_replaced (amount : Employee.t -> Q) (es : list Employee.t) (i : nat)
  (e e' : Employee.t) :
  es !! i = Some e ->
  Forall (fun o => (amount (reload o) == amount o)%Q) es ->
  (total_of amount (map reload (<[i := e']> es))
   == total_of amount es - amount e + amount (reload e'))%Q.
Proof.
  revert i. induction es as [|o es IH]; intros i Hi Hall; [done|].
  apply Forall_cons in Hall as [Ho Hall].
  destruct i as [|i]; cbn in Hi.
  - injection Hi as ->. cbn [map list_insert insert].
    change (<[0%nat := e']> (e :: es)) with (e' :: es). cbn [map].
    rewrite !total_of_cons.
    assert (total_of amount (map reload es) == total_of amount es)%Q as ->; [|lra].
    clear -Hall. induction Hall as [|o es Ho Hall IH]; [done|].
    cbn [map]. rewrite !total_of_cons, IH, Ho. done.
  - change (<[S i := e']> (o :: es)) with (o :: <[i := e']> es). cbn [map].
    rewrite !total_of_cons, (IH i Hi Hall), Ho. lra.
Qed.

Lemma view_weekly_pay_shown (st : App) :
  roster st <> [] ->
  view_weekly_pay st
  = Some (map (fun e => (Employee.id e, Employee.name e,
                         "$" ++ PyStr.fmt2 (Employee.weekly_pay e))) (roster st),
          "Total Weekly Pay: $" ++ PyStr.fmt2 (total_of Employee.weekly_pay (roster st))).
Proof. unfold view_weekly_pay. by destruct (roster st). Qed.

Lemma view_ytd_shown (st : App) :
  roster st <> [] ->
  view_ytd st
  = Some (map (fun e => (Employee.id e, Employee.name e,
                         "$" ++ PyStr.fmt2 (Employee.year_to_date_pay e),
                         get_last_payment_date st e)) (roster st),
          "Total YTD Pay: $" ++ PyStr.fmt2 (total_of Employee.year_to_date_pay (roster st))).
Proof. unfold view_ytd. by destruct (roster st). Qed.

Lemma reload_amounts (e : Employee.t) :
  pay_not_negative e -> in_whole_cents e ->
  (Employee.weekly_pay (reload e) == Employee.weekly_pay e)%Q
  /\ (Employee.year_to_date_pay (reload e) == Employee.year_to_date_pay e)%Q.
Proof.
  intros [Hw Hy] [Cw Cy]. cbn [reload Employee.init Employee.weekly_pay
    Employee.year_to_date_pay].
  rewrite !max0_round2 by done. split; by apply round2_whole_cents.
Qed.

Lemma demo_in_whole_cents : Forall in_whole_cents (roster demo).
Proof.
  change (roster demo)
    with [Employee.mk 1 "Ann Lee" (5000 # 100) (1000 # 100);
          Employee.mk 2 "Bob" 0 (12050 # 100)].
  repeat constructor; cbn.
  - by exists 5000%Z.
  - by exists 1000%Z.
  - by exists 0%Z.
  - by exists 12050%Z.
Qed.

(** X19.  For amounts in whole cents, a confirmed close-out of [W] shows
    in the reports as follows: the total of the weekly pay report goes
    down by [W], the total of the year-to-date report goes up by [W], and
    the employee's rows read [$0.00] and the old year-to-date pay plus
    [W]. *)
Theorem closeout_in_the_reports (st : App) (emp_id : Z) (i emp : nat)
  (e : Employee.t) (attempts : list string) (errors : list reply) (date : string) :
  reachable st ->
  find_employee st emp_id = Some emp -> employees st !! i = Some emp ->
  deref st emp = Some e ->
  (0 < Employee.weekly_pay e)%Q ->
  date_dialog attempts = (errors, Some date) ->
  Forall in_whole_cents (roster st) ->
  let W := Employee.weekly_pay e in
  let st' := fst (process_closeout (Some emp_id) attempts st) in
  exists weekly_rows ytd_rows last_paid,
    view_weekly_pay st'
    = Some (weekly_rows,
            "Total Weekly Pay: $"
            ++ PyStr.fmt2 (total_of Employee.weekly_pay (roster st) - W))
    /\ view_ytd st'
       = Some (ytd_rows,
               "Total YTD Pay: $"
               ++ PyStr.fmt2 (total_of Employee.year_to_date_pay (roster st) + W))
    /\ weekly_rows !! i = Some (Employee.id e, PyStr.strip (Employee.name e), "$0.00")
    /\ ytd_rows !! i
       = Some (Employee.id e, PyStr.strip (Employee.name e),
               "$" ++ PyStr.fmt2 (Employee.year_to_date_pay e + W), last_paid).
Proof.
  intros Hr Hf Hi Hd Hw Hdlg Hc W st'.
  pose proof (reachable_valid_refs _ Hr) as Hv.
  set (paid := Employee.edit_pay (Employee.add_weekly_pay e W) 0).
  assert (Hro : roster st' = map reload (<[i := paid]> (roster st))).
  { subst st'. by apply (closeout_roster st emp_id i emp e attempts errors date). }
  assert (He : roster st !! i = Some e).
  { rewrite (roster_lookup st i emp) by done. exact Hd. }
  assert (Hlt : (i < length (roster st))%nat) by (by eapply lookup_lt_Some).
  assert (Hne : roster st' <> []).
  { rewrite Hro. intros H%(f_equal length).
    rewrite length_map, length_insert in H. cbn in H. lia. }
  pose proof (reachable_not_negative _ Hr) as Hpos.
  destruct (Forall_lookup_1 _ _ _ _ Hpos He) as [_ Hy].
  destruct (Forall_lookup_1 _ _ _ _ Hc He) as [Cw Cy].
  assert (Hpaid : (Employee.year_to_date_pay (reload paid)
                   == Employee.year_to_date_pay e + W)%Q).
  { cbn [reload Employee.init Employee.year_to_date_pay paid Employee.edit_pay
         Employee.add_weekly_pay].
    rewrite max0_round2 by (subst W; lra).
    by apply round2_whole_cents, whole_cents_plus. }
  assert (Hboth : forall amount,
            (forall o, pay_not_negative o -> in_whole_cents o ->
                       (amount (reload o) == amount o)%Q) ->
            Forall (fun o => (amount (reload o) == amount o)%Q) (roster st)).
  { intros amount Ha. apply Forall_forall. intros o Ho.
    apply Ha; [by eapply Forall_forall in Hpos|by eapply Forall_forall in Hc]. }
  eexists _, _, (get_last_payment_date st' (reload paid)).
  rewrite (view_weekly_pay_shown st' Hne), (view_ytd_shown st' Hne), Hro.
  split; [|split; [|split]].
  - do 3 f_equal. apply fmt2_proper.
    rewrite (total_of_replaced Employee.weekly_pay _ i e paid He).
    + change (Employee.weekly_pay (reload paid)) with 0%Q. subst W. lra.
    + apply Hboth. intros o H1 H2. by apply reload_amounts.
  - do 3 f_equal. apply fmt2_proper.
    rewrite (total_of_replaced Employee.year_to_date_pay _ i e paid He).
    + rewrite Hpaid. lra.
    + apply Hboth. intros o H1 H2. by apply reload_amounts.
  - rewrite !list_lookup_fmap, list_lookup_insert_eq by done. reflexivity.
  - rewrite !list_lookup_fmap, list_lookup_insert_eq by done. cbn [fmap option_fmap option_map].
    by rewrite (fmt2_proper _ _ Hpaid).
Qed.

Lemma closeout_in_the_reports_witness :
  let st' := fst (process_closeout (Some 1%Z) ["01/05/2025"] demo) in
  exists weekly_rows ytd_rows last_paid,
    view_weekly_pay st' = Some (weekly_rows, "Total Weekly Pay: $0.00")
    /\ view_ytd st' = Some (ytd_rows, "Total YTD Pay: $180.50")
    /\ weekly_rows !! 0%nat = Some (1%Z, "Ann Lee", "$0.00")
    /\ ytd_rows !! 0%nat = Some (1%Z, "Ann Lee", "$60.00", last_paid).
Proof.
  exact (closeout_in_the_reports demo 1 0 0 ann ["01/05/2025"] [] "01/05/2025"
           (reach_init demo_files "01/05/2025") eq_refl eq_refl eq_refl eq_refl eq_refl
           demo_in_whole_cents).
Defined.

(** ** Payment records are kept *)













(** * Worked examples *)

Example commission_card_115 :
  (Invoice.calculate_commission_static true 200 20 0 10 == 115)%Q.
Proof. reflexivity. Qed.

Example commission_low_materials_115 :
  (Invoice.calculate_commission_static false 200 20 20 10 == 115)%Q.
Proof. reflexivity. Qed.

Example commission_high_materials_140 :
  (Invoice.calculate_commission_static false 200 20 50 10 == 140)%Q.
Proof. reflexivity. Qed.

Example commission_at_threshold :
  (Invoice.calculate_commission_static false 200 20 35 10 == 132.5)%Q
  /\ (Invoice.calculate_commission_static false 200 20 34.99 10 == 115)%Q.
Proof. split; reflexivity. Qed.

Example fmt2_rounds : PyStr.fmt2 (12349 # 1000) = "12.35".
Proof. reflexivity. Qed.

Example fmt2_ties_to_even : PyStr.fmt2 0.125 = "0.12" /\ PyStr.fmt2 0.375 = "0.38".
Proof. split; reflexivity. Qed.

Example fmt2_keeps_sign : PyStr.fmt2 (- (1 # 1000)) = "-0.00".
Proof. reflexivity. Qed.

Example float_reads_decimal :
  PyStr.float " 12.50 " = Some (1250 # 100) /\ PyStr.float "-.5" = Some (-5 # 10)
  /\ PyStr.float "7" = Some (7 # 1) /\ PyStr.float "abc" = None
  /\ PyStr.float "." = None /\ PyStr.float "" = None.
Proof. repeat split; reflexivity. Qed.

Example int_reads_decimal :
  PyStr.int " -12 " = Some (-12)%Z /\ PyStr.int "+7" = Some 7%Z /\ PyStr.int "+" = None
  /\ PyStr.int "1.0" = None.
Proof. repeat split; reflexivity. Qed.

Example strptime_examples :
  strptime_mdY "01/05/2025" = true /\ strptime_mdY "1/5/2025" = true
  /\ strptime_mdY "2/29/2024" = true /\ strptime_mdY "2/29/2023" = false
  /\ strptime_mdY "13/01/2025" = false /\ strptime_mdY "01/05/25" = false
  /\ strptime_mdY "2025-01-05" = false.
Proof. repeat split; reflexivity. Qed.

Example demo_roster :
  roster demo = [ann; Employee.mk 2 "Bob" 0 (12050 # 100)] /\ employees demo = [0; 1]%nat.
Proof. split; reflexivity. Qed.

(** A negative weekly pay in the employee table is read as zero. *)
Example negative_pay_is_loaded_as_zero :
  Employee.weekly_pay <$> parse_employee ["3"; "Cy"; "-12.50"; "4.00"] = Some 0%Q.
Proof. reflexivity. Qed.
